(** * chariot: the tool-calling conversation loop of [main.go]

    A shallow embedding of the agent of [main.go]: the Ollama client
    ([Chat]), the conversation loop ([Run]), tool dispatch
    ([executeTool]) and the two tools ([ReadFile], [ListFiles]).

    The collaborators the program talks to (standard input, the HTTP
    backend, the filesystem) and the Go library functions it calls
    ([encoding/json], [net/http], [os]) are not part of the repository.
    They are gathered in the record [Env], over an arbitrary type [E] of
    states of the outside world; the program's own control flow is
    written out over them.  Every effect the program performs is
    recorded, in order, in a log of events. *)

From Stdlib Require Import String Ascii List Bool Arith Lia.
Import ListNotations.
Local Open Scope list_scope.
Local Open Scope string_scope.

Set Implicit Arguments.

(** ** Go values *)

(** A Go [error]: a value with an [Error()] text. *)
Record error : Type := mkError { Error : string }.

(** A call returning [(T, error)]. *)
Inductive result (A : Type) : Type :=
| Ok (a : A)
| Err (e : error).
Arguments Ok {A} a.
Arguments Err {A} e.

(** How a call ends: it returns, or it panics with a value. *)
Inductive completion (A : Type) : Type :=
| Normal (a : A)
| Panics (v : error).
Arguments Normal {A} a.
Arguments Panics {A} v.

(** A Go slice as far as [json.Marshal] tells: the nil slice, or a
    slice with its elements. *)
Inductive slice (A : Type) : Type :=
| nil_slice
| mk_slice (elems : list A).
Arguments nil_slice {A}.
Arguments mk_slice {A} elems.

Definition elements {A} (s : slice A) : list A :=
  match s with
  | nil_slice => []
  | mk_slice l => l
  end.

(** [append(s, x)]: never nil. *)
Definition append {A} (s : slice A) (x : A) : slice A :=
  mk_slice (elements s ++ [x])%list.

Definition esc : string := String "027"%char EmptyString.
Definition nl : string := String "010"%char EmptyString.
Definition dquote : string := String "034"%char EmptyString.

(** [fmt.Sprintf("%v", xs)] for [xs []string]: the elements separated
    by one space, between brackets. *)
Definition fmt_v (xs : list string) : string :=
  "[" ++ String.concat " " xs ++ "]".

(** ** The Ollama API structures *)

Definition RawMessage : Type := string.

Record ToolCall : Type := mkToolCall {
  tc_Name : string;
  tc_Arguments : RawMessage
}.

Record OllamaMessage : Type := mkMessage {
  Role : string;
  Content : string;
  ToolCalls : list ToolCall
}.

(** One reflected property schema, kept as an opaque text. *)
Definition Schema : Type := string.

Record Parameters : Type := mkParameters {
  p_type : string;
  p_properties : list (string * Schema);
  p_required : list string
}.

Record OllamaTool : Type := mkOllamaTool {
  ot_Type : string;
  ot_Name : string;
  ot_Description : string;
  ot_Parameters : Parameters
}.

Record OllamaRequest : Type := mkRequest {
  rq_Model : string;
  rq_Messages : list OllamaMessage;
  rq_Tools : list OllamaTool;
  rq_Stream : bool
}.

Record OllamaResponse : Type := mkResponse {
  Message : OllamaMessage;
  Done : bool
}.

(** ** HTTP *)

Record HttpRequest : Type := mkHttpRequest {
  hr_Method : string;
  hr_URL : string;
  hr_Body : string;
  hr_Header : list (string * string)
}.

(** What [c.client.Do] hands back: the status line and what
    [io.ReadAll(resp.Body)] is going to give. *)
Record HttpResponse : Type := mkHttpResponse {
  StatusCode : nat;
  Body : result string
}.

(** ** The directory tree seen by [filepath.Walk] *)

#[local] Unset Elimination Schemes.
Inductive node : Type :=
| File                                    (* Lstat: not a directory *)
| Dir (entries : list (string * node))    (* names as readDirNames sorts them *)
| DirUnreadable (e : error)               (* a directory whose names cannot be read *)
| NoStat (e : error).                     (* Lstat fails *)
#[local] Set Elimination Schemes.

Record FileInfo : Type := mkFileInfo { IsDir : bool }.

(** A path handed to the walk function: the root as given to
    [filepath.Walk] and the names joined below it. *)
Record wpath : Type := mkPath {
  wp_root : string;
  wp_names : list string
}.

(** [filepath.Join(path, name)] *)
Definition Join (p : wpath) (name : string) : wpath :=
  mkPath (wp_root p) (wp_names p ++ [name])%list.

(** [filepath.Rel(dir, path)] for a path of the walk rooted at [dir]:
    ["."] for the root, the joined names below it.  (Both functions
    clean their arguments, so that this holds for any spelling of
    [dir]; [Rel] fails only between paths that have no common root.) *)
Definition Rel (dir : string) (p : wpath) : result string :=
  if String.eqb dir (wp_root p) then
    match wp_names p with
    | [] => Ok "."
    | names => Ok (String.concat "/" names)
    end
  else Err (mkError ("Rel: can't make " ++ wp_root p ++ " relative to " ++ dir)).

(** ** Events

    What the program does, in the order it does it: a write on
    standard output, a call of [getUserMessage] with its answer, a
    call of [Chat] with its arguments and its answer, a call of
    [executeTool] with its arguments. *)

Inductive event : Type :=
| EvPrint (s : string)
| EvInput (s : string) (ok : bool)
| EvChat (messages : list OllamaMessage) (tools : list OllamaTool)
         (r : result OllamaResponse)
| EvDispatch (name : string) (input : RawMessage).

Section Program.

Variable E : Type.

Record World : Type := mkWorld {
  ext : E;
  log : list event
}.

(** The program's computations: they act on the world and return or
    panic. *)
Definition M (A : Type) : Type := World -> completion A * World.

Definition ret {A} (a : A) : M A := fun w => (Normal a, w).

Definition bind {A B} (m : M A) (k : A -> M B) : M B :=
  fun w => match m w with
           | (Normal a, w') => k a w'
           | (Panics v, w') => (Panics v, w')
           end.

Definition emit (e : event) : M unit :=
  fun w => (Normal tt, mkWorld (ext w) (log w ++ [e])%list).

(** A call that acts on the outside world only. *)
Definition call {A} (f : E -> completion A * E) : M A :=
  fun w => let (r, x) := f (ext w) in (r, mkWorld x (log w)).

(** The world with more events in its log. *)
Definition logged (w : World) (d : list event) : World :=
  mkWorld (ext w) (log w ++ d)%list.

(** An interaction with the outside world that cannot panic. *)
Definition interact {A} (f : E -> A * E) : M A :=
  fun w => let (a, x) := f (ext w) in (Normal a, mkWorld x (log w)).

Notation "x <- m ;; k" := (bind m (fun x => k))
  (at level 61, m at next level, right associativity).
Notation "m ;;; k" := (bind m (fun _ => k))
  (at level 61, right associativity).

(** ** Library functions and collaborators *)

Record Env : Type := mkEnv {
  (* encoding/json *)
  json_Marshal_request : OllamaRequest -> result string;
  json_Unmarshal_response : string -> result OllamaResponse;
  json_Unmarshal_ReadFileInput : RawMessage -> result string;
  json_Unmarshal_ListFilesInput : RawMessage -> result string;
  json_string : string -> string;
  (* net/http *)
  http_NewRequest : string -> string -> string -> result HttpRequest;
  http_Do : HttpRequest -> E -> result HttpResponse * E;
  (* os *)
  os_ReadFile : string -> E -> result string;
  os_tree : string -> E -> node;
  (* jsonschema reflection *)
  reflect_ReadFileInput : option (list (string * Schema));
  reflect_ListFilesInput : option (list (string * Schema))
}.

Variable env : Env.

(** ** Tools *)

Record ToolInputSchemaParam : Type := mkSchemaParam {
  Properties : option (list (string * Schema))
}.

Record ToolDefinition : Type := mkTool {
  Name : string;
  Description : string;
  InputSchema : ToolInputSchemaParam;
  Function : RawMessage -> E -> completion (string * option error) * E
}.

(** *** [filepath.Walk]

    The walk function threads the variables it captures as a state
    [S].  The sentinels [SkipDir] and [SkipAll] are left out: the
    errors of this model come from [Lstat], from reading a directory
    and from [Rel], none of which is a sentinel. *)

Definition WalkFunc (S : Type) : Type :=
  wpath -> option FileInfo -> option error -> S -> option error * S.

Fixpoint walk {S} (path : wpath) (n : node) (walkFn : WalkFunc S) (s : S)
  : option error * S :=
  match n with
  | NoStat e => walkFn path None (Some e) s
  | File => walkFn path (Some (mkFileInfo false)) None s
  | DirUnreadable e => walkFn path (Some (mkFileInfo true)) (Some e) s
  | Dir entries =>
      match walkFn path (Some (mkFileInfo true)) None s with
      | (Some err1, s1) => (Some err1, s1)
      | (None, s1) =>
          (fix names (l : list (string * node)) (s : S) : option error * S :=
             match l with
             | [] => (None, s)
             | (name, child) :: rest =>
                 match walk (Join path name) child walkFn s with
                 | (Some err, s') => (Some err, s')
                 | (None, s') => names rest s'
                 end
             end) entries s1
      end
  end.

Definition Walk {S} (root : string) (tree : node) (fn : WalkFunc S) (s : S)
  : option error * S :=
  walk (mkPath root []) tree fn s.

(** [json.Marshal(files)] for [files []string] *)
Definition json_Marshal_strings (files : slice string) : result string :=
  match files with
  | nil_slice => Ok "null"
  | mk_slice l => Ok ("[" ++ String.concat "," (map (json_string env) l) ++ "]")
  end.

(** *** read_file *)

Definition ReadFile (input : RawMessage) (x : E)
  : completion (string * option error) * E :=
  match json_Unmarshal_ReadFileInput env input with
  | Err err => (Panics err, x)
  | Ok path =>
      match os_ReadFile env path x with
      | Err err => (Normal (EmptyString, Some err), x)
      | Ok content => (Normal (content, None), x)
      end
  end.

Definition ReadFileInputSchema : ToolInputSchemaParam :=
  mkSchemaParam (reflect_ReadFileInput env).

Definition ReadFileDefinition : ToolDefinition :=
  mkTool "read_file"
    "Read the contents of a given relative file path. Use this when you want to see what's inside a file. Do not use this with directory names."
    ReadFileInputSchema
    ReadFile.

(** *** list_files *)

(** The function literal given to [filepath.Walk]; it captures [dir]
    and appends to [files].  [info] is nil only together with an
    error, and is not looked at then. *)
Definition listFilesFn (dir : string) : WalkFunc (slice string) :=
  fun path info err files =>
    match err with
    | Some err => (Some err, files)
    | None =>
        match Rel dir path with
        | Err err => (Some err, files)
        | Ok relPath =>
            if negb (relPath =? ".") then
              if match info with Some i => IsDir i | None => false end
              then (None, append files (relPath ++ "/"))
              else (None, append files relPath)
            else (None, files)
        end
    end.

Definition ListFiles (input : RawMessage) (x : E)
  : completion (string * option error) * E :=
  match json_Unmarshal_ListFilesInput env input with
  | Err err => (Panics err, x)
  | Ok path =>
      let dir := if negb (path =? EmptyString) then path else "." in
      match Walk dir (os_tree env dir x) (listFilesFn dir) nil_slice with
      | (Some err, _) => (Normal (EmptyString, Some err), x)
      | (None, files) =>
          match json_Marshal_strings files with
          | Err err => (Normal (EmptyString, Some err), x)
          | Ok result => (Normal (result, None), x)
          end
      end
  end.

Definition ListFilesInputSchema : ToolInputSchemaParam :=
  mkSchemaParam (reflect_ListFilesInput env).

Definition ListFilesDefinition : ToolDefinition :=
  mkTool "list_files"
    "List files and directories at a given path. If no path is provided, lists files in the current directory."
    ListFilesInputSchema
    ListFiles.

(** ** The client *)

Record OllamaClient : Type := mkClient {
  baseURL : string;
  model : string
}.

Definition NewOllamaClient (baseURL model : string) : OllamaClient :=
  mkClient baseURL model.

(** [req.Header.Set(key, value)] *)
Definition Header_Set (key value : string) (r : HttpRequest) : HttpRequest :=
  mkHttpRequest (hr_Method r) (hr_URL r) (hr_Body r)
    ((key, value) :: filter (fun kv => negb (fst kv =? key)) (hr_Header r)).

Definition Chat (c : OllamaClient) (messages : list OllamaMessage)
    (tools : list OllamaTool) : M (result OllamaResponse) :=
  let reqBody := mkRequest (model c) messages tools false in
  match json_Marshal_request env reqBody with
  | Err err => ret (Err err)
  | Ok jsonData =>
      match http_NewRequest env "POST" (baseURL c ++ "/api/chat") jsonData with
      | Err err => ret (Err err)
      | Ok req =>
          let req := Header_Set "Content-Type" "application/json" req in
          resp <- interact (http_Do env req) ;;
          match resp with
          | Err err => ret (Err err)
          | Ok resp =>
              match Body resp with
              | Err err => ret (Err err)
              | Ok body =>
                  match json_Unmarshal_response env body with
                  | Err err =>
                      ret (Err (mkError ("failed to parse response: " ++ Error err
                                         ++ ", body: " ++ body)))
                  | Ok ollamaResp => ret (Ok ollamaResp)
                  end
              end
          end
      end
  end.

(** The ways [Chat] returns an error, one for each [return nil, err]
    in its body, from the outside world in state [x]: the error, and
    the state of the world then. *)
Inductive ChatFails (c : OllamaClient) (messages : list OllamaMessage)
    (tools : list OllamaTool) (x : E) : error -> E -> Prop :=
| marshal_fails err :
    json_Marshal_request env (mkRequest (model c) messages tools false) = Err err ->
    ChatFails c messages tools x err x
| request_fails jsonData err :
    json_Marshal_request env (mkRequest (model c) messages tools false) = Ok jsonData ->
    http_NewRequest env "POST" (baseURL c ++ "/api/chat") jsonData = Err err ->
    ChatFails c messages tools x err x
| transport_fails jsonData req err x' :
    json_Marshal_request env (mkRequest (model c) messages tools false) = Ok jsonData ->
    http_NewRequest env "POST" (baseURL c ++ "/api/chat") jsonData = Ok req ->
    http_Do env (Header_Set "Content-Type" "application/json" req) x = (Err err, x') ->
    ChatFails c messages tools x err x'
| body_unreadable jsonData req resp err x' :
    json_Marshal_request env (mkRequest (model c) messages tools false) = Ok jsonData ->
    http_NewRequest env "POST" (baseURL c ++ "/api/chat") jsonData = Ok req ->
    http_Do env (Header_Set "Content-Type" "application/json" req) x = (Ok resp, x') ->
    Body resp = Err err ->
    ChatFails c messages tools x err x'
| body_unparseable jsonData req resp body err x' :
    json_Marshal_request env (mkRequest (model c) messages tools false) = Ok jsonData ->
    http_NewRequest env "POST" (baseURL c ++ "/api/chat") jsonData = Ok req ->
    http_Do env (Header_Set "Content-Type" "application/json" req) x = (Ok resp, x') ->
    Body resp = Ok body ->
    json_Unmarshal_response env body = Err err ->
    ChatFails c messages tools x
      (mkError ("failed to parse response: " ++ Error err ++ ", body: " ++ body)) x'.

(** The backend answers with an error status. *)
Definition reports_error (r : HttpResponse) : bool := (400 <=? StatusCode r)%nat.

(** ** The agent *)

Record Agent : Type := mkAgent {
  client : OllamaClient;
  getUserMessage : E -> (string * bool) * E;
  tools : list ToolDefinition
}.

Definition NewAgent (client : OllamaClient)
    (getUserMessage : E -> (string * bool) * E)
    (tools : list ToolDefinition) : Agent :=
  mkAgent client getUserMessage tools.

(** [properties[pair.Key] = pair.Value] on a map kept as a list of
    bindings with distinct keys. *)
Definition map_set (k : string) (v : Schema) (m : list (string * Schema))
  : list (string * Schema) :=
  (filter (fun kv => negb (fst kv =? k)) m ++ [(k, v)])%list.

Definition toOllamaTool (tool : ToolDefinition) : OllamaTool :=
  let properties :=
    match Properties (InputSchema tool) with
    | Some pairs => fold_left (fun m pair => map_set (fst pair) (snd pair) m) pairs []
    | None => []
    end in
  mkOllamaTool "function" (Name tool) (Description tool)
    (mkParameters "object" properties []).

Definition runInference (a : Agent) (conversation : list OllamaMessage)
  : M (result OllamaResponse) :=
  let ollamaTools := map toOllamaTool (tools a) in
  r <- Chat (client a) conversation ollamaTools ;;
  emit (EvChat conversation ollamaTools r) ;;;
  ret r.

(** The search loop of [executeTool]: the first tool of the catalog
    with the name, if any. *)
Fixpoint lookupTool (tools : list ToolDefinition) (name : string)
  : option ToolDefinition :=
  match tools with
  | [] => None
  | tool :: rest => if Name tool =? name then Some tool else lookupTool rest name
  end.

Definition tool_trace (name : string) (input : RawMessage) : string :=
  esc ++ "[92mtool" ++ esc ++ "[0m: " ++ name ++ "(" ++ input ++ ")" ++ nl.

Definition executeTool (a : Agent) (name : string) (input : RawMessage)
  : M string :=
  emit (EvDispatch name input) ;;;
  match lookupTool (tools a) name with
  | None => ret "tool not found"
  | Some toolDef =>
      emit (EvPrint (tool_trace name input)) ;;;
      r <- call (Function toolDef input) ;;
      match snd r with
      | Some err => ret (Error err)
      | None => ret (fst r)
      end
  end.

(** ** The conversation loop *)

Record LoopState : Type := mkLoop {
  conversation : list OllamaMessage;
  readUserInput : bool
}.

Inductive control : Type :=
| Continue (st : LoopState)
| Return (err : option error).

Definition banner : string := "Chat with Ollama (use 'ctrl-c' to quit)" ++ nl.
Definition prompt : string := esc ++ "[94mYou" ++ esc ++ "[0m: ".
Definition assistant_line (content : string) : string :=
  esc ++ "[93mOllama" ++ esc ++ "[0m: " ++ content ++ nl.

Definition tool_result_line (name result : string) : string :=
  "Tool " ++ name ++ " result: " ++ result.

(** The [for _, toolCall := range] loop of [Run]. *)
Fixpoint runToolCalls (a : Agent) (calls : list ToolCall)
    (toolResults : list string) : M (list string) :=
  match calls with
  | [] => ret toolResults
  | toolCall :: rest =>
      result <- executeTool a (tc_Name toolCall) (tc_Arguments toolCall) ;;
      runToolCalls a rest
        (toolResults ++ [tool_result_line (tc_Name toolCall) result])%list
  end.

Definition user_message (content : string) : OllamaMessage :=
  mkMessage "user" content [].

(** The [if readUserInput] block: the conversation to go on with, or
    [None] for [break]. *)
Definition readInput (a : Agent) (st : LoopState)
  : M (option (list OllamaMessage)) :=
  if readUserInput st then
    emit (EvPrint prompt) ;;;
    inp <- interact (getUserMessage a) ;;
    emit (EvInput (fst inp) (snd inp)) ;;;
    if negb (snd inp) then ret None
    else ret (Some (conversation st ++ [user_message (fst inp)])%list)
  else ret (Some (conversation st)).

(** One turn of the [for] loop of [Run]. *)
Definition iteration (a : Agent) (st : LoopState) : M control :=
  next <- readInput a st ;;
  match next with
  | None => ret (Return None)
  | Some conversation =>
      response <- runInference a conversation ;;
      match response with
      | Err err => ret (Return (Some err))
      | Ok response =>
          let conversation := (conversation ++ [Message response])%list in
          if (0 <? length (ToolCalls (Message response)))%nat then
            toolResults <- runToolCalls a (ToolCalls (Message response)) [] ;;
            ret (Continue
                   (mkLoop
                      (conversation
                         ++ [user_message ("Tool results: " ++ fmt_v toolResults)])%list
                      false))
          else
            emit (EvPrint (assistant_line (Content (Message response)))) ;;;
            ret (Continue (mkLoop conversation true))
      end
  end.

Inductive outcome : Type :=
| Returned (err : option error) (w : World)
| Panicked (v : error) (w : World)
| Running (st : LoopState) (w : World).

Fixpoint iterate (a : Agent) (fuel : nat) (st : LoopState) (w : World)
  : outcome :=
  match fuel with
  | O => Running st w
  | S fuel =>
      match iteration a st w with
      | (Normal (Continue st'), w') => iterate a fuel st' w'
      | (Normal (Return err), w') => Returned err w'
      | (Panics v, w') => Panicked v w'
      end
  end.

Definition Run_start : LoopState := mkLoop [] true.

Definition Run (a : Agent) (fuel : nat) (w : World) : outcome :=
  match emit (EvPrint banner) w with
  | (Normal _, w') => iterate a fuel Run_start w'
  | (Panics v, w') => Panicked v w'
  end.

(** [main], given the agent it builds: the error of [Run] is printed. *)
Definition main (a : Agent) (fuel : nat) (w : World) : outcome :=
  match Run a fuel w with
  | Returned (Some err) w' =>
      Returned (Some err)
        (mkWorld (ext w') (log w' ++ [EvPrint ("Error: " ++ Error err ++ nl)])%list)
  | o => o
  end.

End Program.

(** ** Reading the log *)

Definition ollamaTools {E} (a : Agent E) : list OllamaTool :=
  map (@toOllamaTool E) (tools a).

Definition prints (l : list event) : list string :=
  flat_map (fun e => match e with EvPrint s => [s] | _ => [] end) l.

Definition inputs (l : list event) : list string :=
  flat_map (fun e => match e with EvInput s true => [s] | _ => [] end) l.

Definition chats (l : list event) : list (list OllamaMessage) :=
  flat_map (fun e => match e with EvChat c _ _ => [c] | _ => [] end) l.

Definition chat_replies (l : list event) : list (result OllamaResponse) :=
  flat_map (fun e => match e with EvChat _ _ r => [r] | _ => [] end) l.

Definition dispatches (l : list event) : list ToolCall :=
  flat_map (fun e => match e with
                     | EvDispatch name input => [mkToolCall name input]
                     | _ => []
                     end) l.

(** The backend answered with an assistant turn that requests no tool. *)
Definition text_reply (r : result OllamaResponse) : bool :=
  match r with
  | Ok response =>
      (Role (Message response) =? "assistant")
      && match ToolCalls (Message response) with [] => true | _ => false end
  | Err _ => false
  end.

(** ** The listing of a directory tree, as the specification words it

    Every entry below the root, in the order of the traversal (a
    directory before what it contains, the names of a directory in
    their order), as the names from the root joined by the separator,
    a directory with the separator after it. *)

Definition is_dir (n : node) : bool :=
  match n with
  | Dir _ | DirUnreadable _ => true
  | File | NoStat _ => false
  end.

Definition entry_text (names : list string) (n : node) : string :=
  if is_dir n then String.concat "/" names ++ "/" else String.concat "/" names.

Fixpoint listing (names : list string) (n : node) : list string :=
  match n with
  | Dir entries =>
      (fix each (l : list (string * node)) : list string :=
         match l with
         | [] => []
         | (name, child) :: rest =>
             (entry_text (names ++ [name]) child
                :: listing (names ++ [name]) child) ++ each rest
         end)%list entries
  | _ => []
  end.

(** Every file and directory of the tree can be examined. *)
Fixpoint accessible (n : node) : bool :=
  match n with
  | File => true
  | Dir entries =>
      (fix all (l : list (string * node)) : bool :=
         match l with
         | [] => true
         | (_, child) :: rest => accessible child && all rest
         end) entries
  | DirUnreadable _ | NoStat _ => false
  end.

(** The names of a directory are file names: a directory never lists
    itself as ["."]. *)
Definition proper_names (n : node) : bool :=
  match n with
  | Dir entries => forallb (fun e => negb (fst e =? ".")) entries
  | _ => true
  end.

(** [files] after the appends of [l], one by one: still nil when
    there are none. *)
Definition extend (files : slice string) (l : list string) : slice string :=
  match l with
  | [] => files
  | _ => mk_slice (elements files ++ l)
  end.

(** Induction on a tree, with the property for the entries of a
    directory. *)
Section node_induction.

Variable P : node -> Prop.
Hypothesis P_File : P File.
Hypothesis P_Dir :
  forall entries, Forall (fun e => P (snd e)) entries -> P (Dir entries).
Hypothesis P_DirUnreadable : forall e, P (DirUnreadable e).
Hypothesis P_NoStat : forall e, P (NoStat e).

Fixpoint node_ind (n : node) : P n :=
  match n with
  | File => P_File
  | Dir entries =>
      P_Dir
        ((fix all (l : list (string * node)) : Forall (fun e => P (snd e)) l :=
            match l with
            | [] => Forall_nil _
            | (name, child) :: rest =>
                @Forall_cons _ (fun e => P (snd e)) (name, child) rest
                  (node_ind child) (all rest)
            end) entries)
  | DirUnreadable e => P_DirUnreadable e
  | NoStat e => P_NoStat e
  end.

End node_induction.

(** A JSON array of strings. *)
Definition json_array (quote : string -> string) (l : list string) : string :=
  "[" ++ String.concat "," (map quote l) ++ "]".

(** ** Further readings of a run *)



(** The trace lines of requests: one for each request whose tool is
    in the catalog. *)
Definition traces {E} (a : Agent E) (calls : list ToolCall) : list string :=
  flat_map (fun c => match lookupTool (tools a) (tc_Name c) with
                     | Some _ => [tool_trace (tc_Name c) (tc_Arguments c)]
                     | None => []
                     end) calls.

(** The first file or directory of a tree, in the order of the
    traversal, that cannot be examined, with the error it gives. *)
Fixpoint first_error (n : node) : option error :=
  match n with
  | File => None
  | Dir entries =>
      (fix each (l : list (string * node)) : option error :=
         match l with
         | [] => None
         | (_, child) :: rest =>
             match first_error child with
             | Some e => Some e
             | None => each rest
             end
         end) entries
  | DirUnreadable e | NoStat e => Some e
  end.

(** [m[k]] for a map kept as a list of bindings. *)
Fixpoint binding (k : string) (m : list (string * Schema)) : option Schema :=
  match m with
  | [] => None
  | (k', v) :: rest => if k' =? k then Some v else binding k rest
  end.

(** The value a sequence of pairs gives to [k] last. *)
Fixpoint last_binding (k : string) (pairs : list (string * Schema))
  : option Schema :=
  match pairs with
  | [] => None
  | (k', v) :: rest =>
      match last_binding k rest with
      | Some v' => Some v'
      | None => if k' =? k then Some v else None
      end
  end.

(** The assistant turns the backend returned, in the order of the
    calls. *)
Definition returned_turns (l : list event) : list OllamaMessage :=
  flat_map (fun e => match e with
                     | EvChat _ _ (Ok r) => [Message r]
                     | _ => []
                     end) l.

(** The transcript of user inputs and assistant turns in alternation,
    a user input first. *)
Definition interleave (users : list string) (turns : list OllamaMessage)
  : list OllamaMessage :=
  flat_map (fun e => [mkMessage "user" (fst e) []; snd e]) (combine users turns).

(** The requests of a turn dispatched one after the other, each
    dispatch returning: the results, in the order of the requests,
    and the world after the last one. *)
Inductive Dispatched {E} (a : Agent E)
  : list ToolCall -> World E -> list string -> World E -> Prop :=
| dispatched_none w : Dispatched a [] w [] w
| dispatched_next c rest w r w1 results w2 :
    executeTool a (tc_Name c) (tc_Arguments c) w = (Normal r, w1) ->
    Dispatched a rest w1 results w2 ->
    Dispatched a (c :: rest) w (r :: results) w2.

(** The results of requests, each behind the name of its tool. *)
Definition tagged (calls : list ToolCall) (results : list string) : list string :=
  map (fun cr => "Tool " ++ tc_Name (fst cr) ++ " result: " ++ snd cr)
    (combine calls results).

(** The text of the synthetic turn for requests and their results. *)
Definition results_text (calls : list ToolCall) (results : list string) : string :=
  "Tool results: [" ++ String.concat " " (tagged calls results) ++ "]".

(** ** The program of [main], on a scripted outside world *)

Module Demo.

(** The outside world: the lines left on standard input, the answers
    the backend is going to give, the files and the directory trees. *)
Record ext : Type := mkExt {
  stdin : list string;
  replies : list (result HttpResponse);
  files : list (string * string);
  trees : list (string * node)
}.

(** A string between quotes: the JSON text of a string that needs no
    escape, as the names of the scripted trees are. *)
Definition q (s : string) : string := dquote ++ s ++ dquote.

Fixpoint assoc {A} (k : string) (l : list (string * A)) : option A :=
  match l with
  | [] => None
  | (k', v) :: rest => if k' =? k then Some v else assoc k rest
  end.

(** [scanner.Scan()] and [scanner.Text()] *)
Definition getUserMessage (x : ext) : (string * bool) * ext :=
  match stdin x with
  | [] => ((EmptyString, false), x)
  | line :: rest => ((line, true), mkExt rest (replies x) (files x) (trees x))
  end.

Definition do (req : HttpRequest) (x : ext) : result HttpResponse * ext :=
  match replies x with
  | [] => (Err (mkError "dial tcp 127.0.0.1:11434: connect: connection refused"), x)
  | r :: rest => (r, mkExt (stdin x) rest (files x) (trees x))
  end.

(** The bodies the scripted backend sends, with what [json.Unmarshal]
    makes of them.  An object without a [message] key decodes to the
    zero [OllamaResponse]: keys that match no field are skipped. *)
Definition zero_response : OllamaResponse :=
  mkResponse (mkMessage EmptyString EmptyString []) false.

Definition error_body : string :=
  "{" ++ q "error" ++ ":" ++ q "model 'qwen3:8b' not found" ++ "}".

Definition path_args (p : string) : RawMessage :=
  "{" ++ q "path" ++ ":" ++ q p ++ "}".

Definition bad_args : RawMessage := "{" ++ q "path" ++ ":1}".

Definition bodies : list (string * OllamaResponse) :=
  [ ("hello", mkResponse (mkMessage "assistant" "Hello!" []) true);
    ("bye", mkResponse (mkMessage "assistant" "Goodbye." []) true);
    ("list",
     mkResponse (mkMessage "assistant" EmptyString
                   [mkToolCall "list_files" (path_args "./data")]) true);
    ("read",
     mkResponse (mkMessage "assistant" EmptyString
                   [mkToolCall "read_file" (path_args "config.yaml")]) true);
    ("bad",
     mkResponse (mkMessage "assistant" EmptyString
                   [mkToolCall "read_file" bad_args]) true);
    ("listbad",
     mkResponse (mkMessage "assistant" EmptyString
                   [mkToolCall "list_files" (path_args "./data");
                    mkToolCall "read_file" bad_args]) true);
    ("badlist",
     mkResponse (mkMessage "assistant" EmptyString
                   [mkToolCall "read_file" bad_args;
                    mkToolCall "list_files" (path_args "./data")]) true);
    ("unknown",
     mkResponse (mkMessage "assistant" EmptyString
                   [mkToolCall "write_file" (path_args "x")]) true);
    ("three",
     mkResponse (mkMessage "assistant" EmptyString
                   [mkToolCall "list_files" (path_args "./data");
                    mkToolCall "write_file" (path_args "x");
                    mkToolCall "read_file" (path_args "config.yaml")]) true);
    (error_body, zero_response) ].

Definition unmarshal_response (body : string) : result OllamaResponse :=
  match assoc body bodies with
  | Some r => Ok r
  | None => Err (mkError "invalid character '<' looking for beginning of value")
  end.

(** The argument payloads of the script, with the [path] they decode to. *)
Definition unmarshal_path (field : string) (input : RawMessage) : result string :=
  match assoc input
          [ ("{}", EmptyString);
            (path_args "./data", "./data");
            (path_args "empty", "empty");
            (path_args "locked", "locked");
            (path_args "config.yaml", "config.yaml");
            (path_args "notes.txt", "notes.txt");
            (path_args "x", "x") ] with
  | Some p => Ok p
  | None =>
      Err (mkError ("json: cannot unmarshal number into Go struct field "
                    ++ field ++ " of type string"))
  end.

Definition read_file (path : string) (x : ext) : result string :=
  match assoc path (files x) with
  | Some content => Ok content
  | None => Err (mkError ("open " ++ path ++ ": no such file or directory"))
  end.

Definition tree (root : string) (x : ext) : node :=
  match assoc root (trees x) with
  | Some n => n
  | None => NoStat (mkError ("lstat " ++ root ++ ": no such file or directory"))
  end.

Definition env : Env ext :=
  mkEnv
    (fun _ => Ok "{}")
    unmarshal_response
    (unmarshal_path "ReadFileInput.path")
    (unmarshal_path "ListFilesInput.path")
    q
    (fun method url body => Ok (mkHttpRequest method url body []))
    do
    read_file
    tree
    (Some [("path", "The relative path of a file in the working directory.")])
    (Some [("path", "Optional relative path to list files from. Defaults to current directory if not provided.")]).

Definition tools : list (ToolDefinition ext) :=
  [ReadFileDefinition env; ListFilesDefinition env].

Definition agent : Agent ext :=
  NewAgent (NewOllamaClient "http://localhost:11434" "qwen3:8b")
    getUserMessage tools.

(** A catalog in which a later tool takes the name of [read_file]. *)
Definition second_read_file : ToolDefinition ext :=
  mkTool "read_file" "A later tool of the same name." (mkSchemaParam None)
    (fun _ x => (Normal ("the second read_file", None), x)).

Definition shadowing_agent : Agent ext :=
  NewAgent (NewOllamaClient "http://localhost:11434" "qwen3:8b")
    getUserMessage (tools ++ [second_read_file])%list.

(** An agent whose only tool returns whatever it is given. *)
Definition careful_agent : Agent ext :=
  NewAgent (NewOllamaClient "http://localhost:11434" "qwen3:8b")
    getUserMessage [second_read_file].

(** The outside world with a backend that requests a tool in every
    answer. *)
Definition eager_env : Env ext :=
  mkEnv
    (fun _ => Ok "{}")
    unmarshal_response
    (unmarshal_path "ReadFileInput.path")
    (unmarshal_path "ListFilesInput.path")
    q
    (fun method url body => Ok (mkHttpRequest method url body []))
    (fun _ x => (Ok (mkHttpResponse 200 (Ok "unknown")), x))
    read_file
    tree
    None
    None.

Definition reply (status : nat) (body : string) : result HttpResponse :=
  Ok (mkHttpResponse status (Ok body)).

Definition disk : list (string * node) :=
  [ ("./data", Dir [("a.txt", File); ("sub", Dir [])]);
    ("locked",
     Dir [("a.txt", File);
          ("private", DirUnreadable (mkError "open locked/private: permission denied"));
          ("z.txt", File)]);
    (".", Dir [("data", Dir [("a.txt", File); ("sub", Dir [("b", File)])]);
               ("notes.txt", File)]);
    ("empty", Dir []) ].

Definition world (lines : list string) (script : list (result HttpResponse))
  : World ext :=
  mkWorld (mkExt lines script [("notes.txt", "remember")] disk) [].

End Demo.


(** * Properties *)

Ltac run_m := unfold bind, ret, emit, call, interact; cbn.

Section Dispatch.

Variable E : Type.
Variable a : Agent E.

Lemma lookupTool_first (pre post : list (ToolDefinition E)) d name :
  Forall (fun t => Name t <> name) pre ->
  Name d = name ->
  lookupTool (pre ++ d :: post) name = Some d.
Proof.
  intros Hpre Hd. induction Hpre as [|t pre Ht _ IH]; cbn.
  - apply String.eqb_eq in Hd. now rewrite Hd.
  - apply String.eqb_neq in Ht. now rewrite Ht.
Qed.


Lemma executeTool_found d name input (w : World E) :
  lookupTool (tools a) name = Some d ->
  executeTool a name input w =
    let lg := (log w ++ [EvDispatch name input; EvPrint (tool_trace name input)])%list in
    match Function d input (ext w) with
    | (Normal r, x) =>
        (Normal (match snd r with Some err => Error err | None => fst r end),
         mkWorld x lg)
    | (Panics v, x) => (Panics v, mkWorld x lg)
    end.
Proof.
  intros H. unfold executeTool. run_m. rewrite H. run_m.
  rewrite <- app_assoc. cbn.
  destruct (Function d input (ext w)) as [[[r [e|]]|v] x]; reflexivity.
Qed.

Lemma executeTool_not_found name input (w : World E) :
  lookupTool (tools a) name = None ->
  executeTool a name input w =
    (Normal "tool not found", mkWorld (ext w) (log w ++ [EvDispatch name input])%list).
Proof.
  intros H. unfold executeTool. run_m. now rewrite H.
Qed.

End Dispatch.

Section Loop.

Variable E : Type.
Variable env : Env E.
Variable a : Agent E.

(** [Chat] returns: it has no panic of its own, and writes nothing. *)
Lemma Chat_returns c messages ts (w : World E) :
  exists r x, Chat env c messages ts w = (Normal r, mkWorld x (log w)).
Proof.
  unfold Chat. destruct w as [x lg]; cbn.
  destruct (json_Marshal_request env _); [|unfold ret; eauto].
  destruct (http_NewRequest env _ _ _); [|unfold ret; eauto].
  run_m. destruct (http_Do env _ x) as [[resp|e] x']; cbn; [|eauto].
  destruct (Body resp); [|eauto].
  destruct (json_Unmarshal_response env _); eauto.
Qed.

(** What [executeTool] adds to the log: the dispatch, and the trace
    line of a tool that was found. *)
Lemma executeTool_log name input (w : World E) r w' :
  executeTool a name input w = (r, w') ->
  exists d, log w' = (log w ++ EvDispatch name input :: d)%list
            /\ dispatches d = [] /\ chats d = [] /\ inputs d = [].
Proof.
  destruct (lookupTool (tools a) name) as [d|] eqn:Hl.
  - rewrite (executeTool_found a name input w Hl). cbn.
    destruct (Function d input (ext w)) as [[r0|v] x]; intros [= <- <-]; cbn;
      exists [EvPrint (tool_trace name input)]; auto.
  - rewrite (executeTool_not_found a name input w Hl).
    intros [= <- <-]; cbn. exists []; auto.
Qed.


Lemma runToolCalls_cons c rest acc (w : World E) :
  runToolCalls a (c :: rest) acc w =
    match executeTool a (tc_Name c) (tc_Arguments c) w with
    | (Normal r, w') =>
        runToolCalls a rest (acc ++ [tool_result_line (tc_Name c) r]) w'
    | (Panics v, w') => (Panics v, w')
    end.
Proof. reflexivity. Qed.


(** A turn that completes dispatches each of its requests once, in
    their order, and neither prompts nor calls the backend. *)
Lemma runToolCalls_log calls acc (w : World E) o w' :
  runToolCalls a calls acc w = (o, w') ->
  exists d, log w' = (log w ++ d)%list
            /\ chats d = [] /\ inputs d = []
            /\ match o with
               | Normal _ => dispatches d = calls
               | Panics _ => exists k, dispatches d = firstn (S k) calls /\ k < length calls
               end.
Proof.
  revert acc w. induction calls as [|[n i] calls IH]; intros acc w.
  - cbn. intros [= <- <-]. exists []. now rewrite app_nil_r.
  - rewrite runToolCalls_cons. cbn [tc_Name tc_Arguments].
    destruct (executeTool a n i w) as [[r|v] w1] eqn:He;
      apply executeTool_log in He; destruct He as (d1 & Hl1 & Hd1 & Hc1 & Hi1).
    + intros H. apply IH in H. destruct H as (d & Hl & Hc & Hi & Hd).
      exists (EvDispatch n i :: d1 ++ d). rewrite Hl, Hl1, <- app_assoc. cbn.
      unfold chats, inputs, dispatches in *.
      rewrite !flat_map_app, Hc, Hi, Hc1, Hi1, Hd1. cbn.
      repeat split; auto.
      destruct o; [now rewrite Hd|].
      destruct Hd as (k & Hk & Hlt). exists (S k). cbn. rewrite Hk. split; [auto|lia].
    + intros [= <- <-]. exists (EvDispatch n i :: d1). rewrite Hl1. cbn.
      unfold chats, inputs, dispatches in *. rewrite Hd1, Hc1, Hi1.
      repeat split; auto. exists 0. cbn. split; [auto|lia].
Qed.

(** The loop body after the [if readUserInput] block and the call of
    the backend. *)
Lemma iteration_after_chat st (w : World E) conversation w1 r w2 :
  readInput a st w = (Normal (Some conversation), w1) ->
  Chat env (client a) conversation (ollamaTools a) w1
    = (Normal r, w2) ->
  iteration env a st w =
    let w2 := logged w2 [EvChat conversation (ollamaTools a) r] in
    match r with
    | Err err => (Normal (Return (Some err)), w2)
    | Ok response =>
        match ToolCalls (Message response) with
        | [] =>
            (Normal (Continue (mkLoop (conversation ++ [Message response]) true)),
             logged w2 [EvPrint (assistant_line (Content (Message response)))])
        | calls =>
            match runToolCalls a calls [] w2 with
            | (Normal toolResults, w3) =>
                (Normal (Continue
                           (mkLoop (conversation
                                      ++ [Message response;
                                          user_message ("Tool results: "
                                                        ++ fmt_v toolResults)])
                                   false)), w3)
            | (Panics v, w3) => (Panics v, w3)
            end
        end
    end%list.
Proof.
  intros Hin Hchat. unfold ollamaTools in *. unfold iteration, runInference, bind.
  rewrite Hin, Hchat. unfold emit, ret, logged. cbn [ext log].
  destruct r as [response|err]; [|reflexivity].
  destruct (ToolCalls (Message response)) as [|c calls] eqn:Hc.
  - cbn. now rewrite <- app_assoc.
  - cbn [length Nat.ltb Nat.leb].
    destruct (runToolCalls a (c :: calls) [] _) as [[rs|v] w3]; [|reflexivity].
    now rewrite <- app_assoc.
Qed.

Lemma iterate_add n m st (w : World E) :
  iterate env a (n + m) st w =
    match iterate env a n st w with
    | Running st' w' => iterate env a m st' w'
    | o => o
    end.
Proof.
  revert st w. induction n as [|n IH]; intros st w; cbn; [reflexivity|].
  destruct (iteration env a st w) as [[[st'|err]|v] w']; auto.
Qed.

Lemma Run_add n m (w0 : World E) :
  Run env a (n + m) w0 =
    match Run env a n w0 with
    | Running st w => iterate env a m st w
    | o => o
    end.
Proof. unfold Run. cbn. apply iterate_add. Qed.

(** [main] prints the error [Run] returns, and nothing otherwise. *)
Lemma main_prints_error fuel (w0 : World E) err w :
  Run env a fuel w0 = Returned err w ->
  main env a fuel w0 =
    Returned err
      match err with
      | Some e => logged w [EvPrint ("Error: " ++ Error e ++ nl)]
      | None => w
      end.
Proof. intros H. unfold main. rewrite H. now destruct err. Qed.

(** [Chat] returns an error exactly in the cases of [ChatFails]. *)
Lemma Chat_fails_iff c messages ts (w : World E) err x' :
  Chat env c messages ts w = (Normal (Err err), mkWorld x' (log w))
  <-> ChatFails env c messages ts (ext w) err x'.
Proof.
  destruct w as [x lg]. unfold Chat. cbn [ext log]. split.
  - destruct (json_Marshal_request env _) as [jsonData|e] eqn:H1.
    2:{ intros [= <- <-]. now apply marshal_fails. }
    destruct (http_NewRequest env _ _ _) as [req|e] eqn:H2.
    2:{ intros [= <- <-]. eapply request_fails; eauto. }
    run_m. destruct (http_Do env _ x) as [[resp|e] x1] eqn:H3; cbn.
    2:{ intros [= <- <-]. eapply transport_fails; eauto. }
    destruct (Body resp) as [body|e] eqn:H4.
    2:{ intros [= <- <-]. eapply body_unreadable; eauto. }
    destruct (json_Unmarshal_response env body) as [r|e] eqn:H5; [discriminate|].
    intros [= <- <-]. eapply body_unparseable; eauto.
  - intros H. inversion H; subst; clear H.
    + now rewrite H0.
    + now rewrite H0, H1.
    + rewrite H0, H1. run_m. now rewrite H2.
    + rewrite H0, H1. run_m. rewrite H2. cbn. now rewrite H3.
    + rewrite H0, H1. run_m. rewrite H2. cbn. now rewrite H3, H4.
Qed.


End Loop.

Section Exchanges.

Variable E : Type.
Variable env : Env E.
Variable a : Agent E.

(** The [if readUserInput] block when input is awaited. *)
Lemma readInput_reading st (w : World E) :
  readUserInput st = true ->
  readInput a st w =
    let (inp, x) := getUserMessage a (ext w) in
    let w1 := mkWorld x (log w ++ [EvPrint prompt; EvInput (fst inp) (snd inp)])%list in
    if snd inp
    then (Normal (Some (conversation st ++ [user_message (fst inp)])%list), w1)
    else (Normal None, w1).
Proof.
  intros H. unfold readInput. rewrite H. run_m.
  destruct (getUserMessage a (ext w)) as [[u ok] x]. cbn.
  rewrite <- app_assoc. now destruct ok.
Qed.

(** One turn of the loop that awaits input, goes on, and in which the
    backend answers with text only: an exchange. *)
Lemma iteration_exchange st (w : World E) st1 w1 d :
  readUserInput st = true ->
  iteration env a st w = (Normal (Continue st1), w1) ->
  log w1 = (log w ++ d)%list ->
  forallb text_reply (chat_replies d) = true ->
  exists u response,
    Role (Message response) = "assistant"
    /\ ToolCalls (Message response) = []
    /\ st1 = mkLoop (conversation st ++ [user_message u; Message response])%list true
    /\ d = [EvPrint prompt; EvInput u true;
            EvChat (conversation st ++ [user_message u])%list (ollamaTools a)
              (Ok response);
            EvPrint (assistant_line (Content (Message response)))].
Proof.
  intros Hread Hit Hlog Htext.
  pose proof (readInput_reading st w Hread) as Hin.
  destruct (getUserMessage a (ext w)) as [[u ok] x]. cbn in Hin.
  destruct ok.
  2:{ unfold iteration, bind in Hit. rewrite Hin in Hit. discriminate. }
  set (w0 := mkWorld x (log w ++ [EvPrint prompt; EvInput u true])%list) in *.
  destruct (Chat_returns env (client a)
              (conversation st ++ [user_message u])%list (ollamaTools a) w0)
    as (r & x2 & Hchat).
  rewrite (iteration_after_chat env a st w Hin Hchat) in Hit. cbn zeta in Hit.
  destruct r as [response|err]; [|discriminate].
  destruct (ToolCalls (Message response)) as [|c calls] eqn:Hcalls.
  - injection Hit as <- <-. unfold logged in Hlog. cbn in Hlog.
    rewrite <- !app_assoc in Hlog. apply app_inv_head in Hlog. subst d.
    cbn in Htext. rewrite Hcalls in Htext. rewrite !andb_true_r in Htext.
    apply String.eqb_eq in Htext.
    exists u, response. rewrite <- app_assoc. auto.
  - exfalso.
    destruct (runToolCalls a (c :: calls) [] _) as [[rs|v] w3] eqn:Hrun;
      [|discriminate].
    injection Hit as _ <-.
    apply runToolCalls_log in Hrun. destruct Hrun as (d' & Hl' & _).
    rewrite Hl' in Hlog. unfold logged in Hlog. cbn in Hlog.
    rewrite <- !app_assoc in Hlog. apply app_inv_head in Hlog. subst d.
    cbn in Htext. rewrite Hcalls in Htext. rewrite andb_false_r in Htext.
    discriminate.
Qed.

(** The [if readUserInput] block returns, and only adds to the log. *)
Lemma readInput_returns st (w : World E) :
  exists next w1 d1,
    readInput a st w = (Normal next, w1) /\ log w1 = (log w ++ d1)%list.
Proof.
  destruct (readUserInput st) eqn:Hread.
  - rewrite (readInput_reading st w Hread).
    destruct (getUserMessage a (ext w)) as [[u ok] x]. cbn [fst snd].
    destruct ok; do 3 eexists; split; reflexivity.
  - unfold readInput. rewrite Hread. exists (Some (conversation st)), w, [].
    now rewrite app_nil_r.
Qed.

(** Every turn of the loop only adds to the log. *)
Lemma iteration_log st (w : World E) o w' :
  iteration env a st w = (o, w') -> exists d, log w' = (log w ++ d)%list.
Proof.
  destruct (readInput_returns st w) as (next & w1 & d1 & Hin & Hl1).
  destruct next as [conversation|].
  2:{ unfold iteration, bind. rewrite Hin. intros [= <- <-]. eauto. }
  destruct (Chat_returns env (client a) conversation (ollamaTools a) w1)
    as (r & x2 & Hchat).
  rewrite (iteration_after_chat env a st w Hin Hchat). cbn zeta.
  destruct r as [response|err].
  2:{ intros [= <- <-]. cbn. rewrite Hl1, <- app_assoc. eauto. }
  destruct (ToolCalls (Message response)) as [|c calls].
  - intros [= <- <-]. cbn. rewrite Hl1, <- !app_assoc. eauto.
  - destruct (runToolCalls a (c :: calls) [] _) as [[rs|v] w3] eqn:Hrun;
      apply runToolCalls_log in Hrun; destruct Hrun as (d3 & Hl3 & _);
      cbn in Hl3; intros [= <- <-]; rewrite Hl3, Hl1, <- !app_assoc; eauto.
Qed.

Lemma iterate_log n st (w : World E) st' w' :
  iterate env a n st w = Running st' w' -> exists d, log w' = (log w ++ d)%list.
Proof.
  revert st w. induction n as [|n IH]; intros st w; cbn.
  - intros [= <- <-]. exists []. now rewrite app_nil_r.
  - destruct (iteration env a st w) as [[[st1|err]|v] w1] eqn:Hit; try discriminate.
    intros H. apply IH in H. destruct H as (d2 & ->).
    apply iteration_log in Hit. destruct Hit as (d1 & ->).
    rewrite <- app_assoc. eauto.
Qed.

(** The loop over the requests of a turn returns exactly when every
    dispatch returns, with the results of the dispatches, each behind
    the name of its tool, after what was there. *)
Lemma runToolCalls_Dispatched calls acc (w : World E) rs w' :
  runToolCalls a calls acc w = (Normal rs, w')
  <-> exists results,
        Dispatched a calls w results w'
        /\ rs = (acc ++ tagged calls results)%list.
Proof.
  split.
  - revert acc w. induction calls as [|c calls IH]; intros acc w.
    + cbn. intros [= <- <-]. exists []. split; [constructor|].
      now rewrite app_nil_r.
    + rewrite runToolCalls_cons.
      destruct (executeTool a (tc_Name c) (tc_Arguments c) w) as [[r|v] w1] eqn:He;
        [|discriminate].
      intros H. apply IH in H. destruct H as (results & Hd & ->).
      exists (r :: results). split; [econstructor; eauto|].
      rewrite <- app_assoc. reflexivity.
  - intros (results & Hd & ->). revert acc.
    induction Hd as [w|c rest w r w1 results w2 He _ IH]; intros acc.
    + cbn. now rewrite app_nil_r.
    + rewrite runToolCalls_cons, He, IH. rewrite <- app_assoc. reflexivity.
Qed.

Lemma Dispatched_length calls (w : World E) results w' :
  Dispatched a calls w results w' -> length results = length calls.
Proof. induction 1; cbn; auto. Qed.

(** A turn with tool call requests whose dispatches all return: each
    request is dispatched once, in the order of the requests, and
    nothing else happens meanwhile; one synthetic user turn is
    appended after the assistant turn, whose text holds the result of
    each dispatch behind the name of its tool, in that order; and the
    next turn of the loop starts with the call of the backend on that
    transcript, without reading input. *)
Lemma tool_turn_completes st (w : World E) sent w1 response w2 results w3 :
  readInput a st w = (Normal (Some sent), w1) ->
  Chat env (client a) sent (ollamaTools a) w1 = (Normal (Ok response), w2) ->
  ToolCalls (Message response) <> [] ->
  Dispatched a (ToolCalls (Message response))
    (logged w2 [EvChat sent (ollamaTools a) (Ok response)]) results w3 ->
  let transcript :=
    (sent ++ [Message response;
              mkMessage "user"
                (results_text (ToolCalls (Message response)) results) []])%list in
  iteration env a st w = (Normal (Continue (mkLoop transcript false)), w3)
  /\ length results = length (ToolCalls (Message response))
  /\ (exists d,
         log w3 = (log w2 ++ EvChat sent (ollamaTools a) (Ok response) :: d)%list
         /\ dispatches d = ToolCalls (Message response)
         /\ chats d = [] /\ inputs d = [])
  /\ (exists r' d',
         log (snd (iteration env a (mkLoop transcript false) w3))
         = (log w3 ++ EvChat transcript (ollamaTools a) r' :: d')%list).
Proof.
  intros Hin Hchat Hne Hd transcript.
  assert (Hrun : runToolCalls a (ToolCalls (Message response)) []
                   (logged w2 [EvChat sent (ollamaTools a) (Ok response)])
                 = (Normal (tagged (ToolCalls (Message response)) results), w3)).
  { apply runToolCalls_Dispatched. exists results. auto. }
  split; [|split; [|split]].
  - rewrite (iteration_after_chat env a st w Hin Hchat). cbn zeta.
    destruct (ToolCalls (Message response)) as [|c calls]; [congruence|].
    rewrite Hrun. reflexivity.
  - eapply Dispatched_length; eauto.
  - apply runToolCalls_log in Hrun. destruct Hrun as (d & Hl & Hc & Hi & Hdd).
    exists d. cbn in Hl. rewrite <- app_assoc in Hl. auto.
  - assert (Hin' : readInput a (mkLoop transcript false) w3
                   = (Normal (Some transcript), w3)) by reflexivity.
    destruct (Chat_returns env (client a) transcript (ollamaTools a) w3)
      as (r' & x4 & Hchat').
    rewrite (iteration_after_chat env a _ w3 Hin' Hchat'). cbn zeta.
    exists r'. destruct r' as [response'|err].
    2:{ cbn. eauto. }
    destruct (ToolCalls (Message response')) as [|c calls].
    + cbn. rewrite <- app_assoc. cbn. eauto.
    + destruct (runToolCalls a (c :: calls) [] _) as [o w5] eqn:Hrun'.
      apply runToolCalls_log in Hrun'. destruct Hrun' as (d' & Hl' & _).
      exists d'. cbn in Hl'. rewrite <- app_assoc in Hl'.
      destruct o; exact Hl'.
Qed.

End Exchanges.

Section ExchangesLogged.

Variable E : Type.
Variable env : Env E.
Variable a : Agent E.

(** [n] turns of the loop in which the backend answers with text
    only: [n] inputs read, [n] assistant turns returned, the
    transcript grown by them in alternation, and on the console the
    prompt and the line of each assistant turn. *)
Lemma iterate_exchanges_logged n st (w : World E) st' w' d :
  readUserInput st = true ->
  iterate env a n st w = Running st' w' ->
  log w' = (log w ++ d)%list ->
  forallb text_reply (chat_replies d) = true ->
  length (inputs d) = n
  /\ length (returned_turns d) = n
  /\ Forall (fun m => Role m = "assistant") (returned_turns d)
  /\ st' = mkLoop (conversation st ++ interleave (inputs d) (returned_turns d))%list
              true
  /\ prints d
     = flat_map (fun m => [prompt; assistant_line (Content m)]) (returned_turns d).
Proof.
  revert st w d. induction n as [|n IH]; intros st w d Hread; cbn [iterate].
  - intros [= <- <-] Hlog _.
    rewrite <- (app_nil_r (log w)) in Hlog at 1. apply app_inv_head in Hlog.
    subst d. cbn. rewrite app_nil_r. destruct st; cbn in *; subst; auto.
  - destruct (iteration env a st w) as [[[st1|err]|v] w1] eqn:Hit; try discriminate.
    intros Hrest Hlog Htext.
    destruct (iteration_log _ _ _ _ Hit) as (d1 & Hl1).
    destruct (iterate_log _ _ _ _ _ Hrest) as (d2 & Hl2).
    rewrite Hl2, Hl1, <- app_assoc in Hlog. apply app_inv_head in Hlog. subst d.
    unfold chat_replies in Htext. rewrite flat_map_app, forallb_app in Htext.
    apply andb_true_iff in Htext. destruct Htext as (Ht1 & Ht2).
    destruct (iteration_exchange _ _ _ _ _ Hread Hit Hl1 Ht1)
      as (u & response & Hrole & Hcalls & -> & ->).
    destruct (IH (mkLoop (conversation st ++ [user_message u; Message response]) true)
                w1 d2 eq_refl Hrest Hl2 Ht2)
      as (Hi & Ht & Hall & -> & Hpr).
    unfold inputs, returned_turns, prints in *. rewrite !flat_map_app.
    cbn [flat_map app length]. rewrite Hi, Ht, Hpr.
    repeat split; auto.
    cbn [conversation]. unfold interleave. cbn [combine flat_map fst snd app].
    now rewrite <- app_assoc.
Qed.

Lemma interleave_length users turns :
  length users = length turns ->
  length (interleave users turns) = 2 * length turns.
Proof.
  revert turns. induction users as [|u users IH]; intros [|m turns]; cbn;
    try discriminate; [reflexivity|].
  intros [= H]. unfold interleave in IH. rewrite (IH _ H). lia.
Qed.

Lemma interleave_roles users turns :
  length users = length turns ->
  Forall (fun m => Role m = "assistant") turns ->
  map Role (interleave users turns)
  = concat (repeat ["user"; "assistant"] (length turns)).
Proof.
  revert turns. induction users as [|u users IH]; intros [|m turns]; cbn;
    try discriminate; [reflexivity|].
  intros [= H] Hall. inversion Hall as [|? ? Hm Hrest]; subst.
  unfold interleave in IH. now rewrite Hm, (IH _ H Hrest).
Qed.

End ExchangesLogged.

Section Claims.

Variable E : Type.
Variable env : Env E.
Variable a : Agent E.

(** C8.  When the loop awaits user input and the input source is
    exhausted ([getUserMessage] answers [ok = false]), the loop ends
    and [Run] returns [nil]: after the prompt and the failed read,
    nothing else happens. *)
Theorem Run_returns_nil_on_end_of_input n (w0 : World E) st w s x fuel :
  Run env a n w0 = Running st w ->
  readUserInput st = true ->
  getUserMessage a (ext w) = ((s, false), x) ->
  Run env a (n + S fuel) w0 =
    Returned None (mkWorld x (log w ++ [EvPrint prompt; EvInput s false])).
Proof.
  intros Hrun Hread Hget. rewrite Run_add, Hrun. cbn.
  unfold iteration, readInput, bind. rewrite Hread.
  unfold emit, interact, ret. cbn. rewrite Hget. cbn.
  now rewrite <- app_assoc.
Qed.

(** C10.  Dispatch scans the catalog in registration order and invokes
    the first descriptor with the requested name, whatever comes
    after it in the catalog, a second descriptor of that name
    included. *)
Theorem executeTool_invokes_first_match pre d post name input (w : World E) :
  tools a = (pre ++ d :: post)%list ->
  Forall (fun t => Name t <> name) pre ->
  Name d = name ->
  lookupTool (tools a) name = Some d
  /\ executeTool a name input w =
       let lg := (log w ++ [EvDispatch name input; EvPrint (tool_trace name input)])%list in
       match Function d input (ext w) with
       | (Normal r, x) =>
           (Normal (match snd r with Some err => Error err | None => fst r end),
            mkWorld x lg)
       | (Panics v, x) => (Panics v, mkWorld x lg)
       end.
Proof.
  intros Htools Hpre Hd.
  assert (Hl : lookupTool (tools a) name = Some d)
    by (rewrite Htools; now apply lookupTool_first).
  split; [exact Hl | now apply executeTool_found].
Qed.



(** C5, as the code has it.  Every failure that [Chat] returns (the
    request cannot be built, the transport fails, the body cannot be
    read or cannot be parsed) aborts the run: [Run] returns that
    error, and the failed call is the last thing that happens, with
    no further prompt or backend call. *)
Theorem client_failure_aborts_run n (w0 : World E) st w conversation w1 err x fuel :
  Run env a n w0 = Running st w ->
  readInput a st w = (Normal (Some conversation), w1) ->
  ChatFails env (client a) conversation (ollamaTools a) (ext w1) err x ->
  Run env a (n + S fuel) w0 =
    Returned (Some err)
      (mkWorld x (log w1 ++ [EvChat conversation (ollamaTools a) (Err err)])).
Proof.
  intros Hrun Hin Hfail. rewrite Run_add, Hrun. cbn.
  apply Chat_fails_iff in Hfail.
  now rewrite (@iteration_after_chat E env a st w _ _ _ _ Hin Hfail).
Qed.

(** C3.  After [N] turns of the loop in which the backend answered
    with assistant turns that request no tool, [N] inputs have been
    read and [N] assistant turns returned, and the transcript is
    these in alternation, a user turn with the input first: [2 * N]
    turns, of roles user and assistant in alternation; and the
    console shows, after the banner, for each assistant turn the
    backend returned, in their order, the prompt and one line with
    its content, and nothing else. *)
Theorem text_exchanges_alternate N (w0 : World E) st w :
  log w0 = [] ->
  Run env a N w0 = Running st w ->
  forallb text_reply (chat_replies (log w)) = true ->
  length (inputs (log w)) = N
  /\ length (returned_turns (log w)) = N
  /\ conversation st = interleave (inputs (log w)) (returned_turns (log w))
  /\ length (conversation st) = 2 * N
  /\ map Role (conversation st) = concat (repeat ["user"; "assistant"] N)
  /\ prints (log w)
     = ("Chat with Ollama (use 'ctrl-c' to quit)" ++ String "010" EmptyString)
         :: flat_map
              (fun m =>
                 [String "027" ("[94mYou" ++ String "027" "[0m: ");
                  String "027"
                    ("[93mOllama"
                       ++ String "027"
                            ("[0m: " ++ Content m ++ String "010" EmptyString))])
              (returned_turns (log w)).
Proof.
  intros Hl0 Hrun Htext. unfold Run, emit in Hrun. rewrite Hl0 in Hrun.
  cbn [app] in Hrun.
  destruct (iterate_log _ _ _ _ _ Hrun) as (d & Hl). cbn [log] in Hl.
  rewrite Hl in Htext |- *. cbn in Htext.
  destruct (iterate_exchanges_logged env a N Run_start _ d eq_refl Hrun Hl Htext)
    as (Hi & Ht & Hall & -> & Hpr).
  unfold Run_start. cbn [conversation app].
  change (inputs (EvPrint banner :: d)) with (inputs d).
  change (returned_turns (EvPrint banner :: d)) with (returned_turns d).
  change (prints (EvPrint banner :: d)) with (banner :: prints d).
  split; [exact Hi|]. split; [exact Ht|]. split; [reflexivity|].
  split; [rewrite interleave_length; lia|].
  split; [rewrite interleave_roles, Ht; auto; lia|].
  rewrite Hpr. reflexivity.
Qed.

End Claims.

Section Listing.

Lemma extend_extend files l1 l2 :
  extend (extend files l1) l2 = extend files (l1 ++ l2).
Proof.
  destruct l1 as [|a l1]; [reflexivity|].
  destruct l2 as [|b l2]; cbn; [now rewrite app_nil_r|].
  now rewrite <- app_assoc.
Qed.

Lemma extend_cons files x l :
  extend files (x :: l) = extend (extend files [x]) l.
Proof. now rewrite extend_extend. Qed.

(** Two names or more joined by the separator are not ["."]. *)
Lemma joined_not_dot a b (l : list string) :
  String.concat "/" (a :: b :: l) <> ".".
Proof.
  change (String.concat "/" (a :: b :: l))
    with (a ++ "/" ++ String.concat "/" (b :: l)).
  destruct a as [|ch a]; [discriminate|].
  destruct a as [|ch' a]; cbn; intros [= _ H]; discriminate.
Qed.

Lemma joined_snoc_not_dot names name :
  names <> [] -> String.concat "/" (names ++ [name]) <> ".".
Proof.
  destruct names as [|a [|b l]]; [congruence| |]; intros _; apply joined_not_dot.
Qed.

(** The walk function on a path of the walk that is not the root. *)
Lemma listFilesFn_entry dir names isdir files :
  names <> [] ->
  String.concat "/" names <> "." ->
  listFilesFn dir (mkPath dir names) (Some (mkFileInfo isdir)) None files =
    (None, extend files
             [if isdir then String.concat "/" names ++ "/"
              else String.concat "/" names]).
Proof.
  intros Hne Hdot. unfold listFilesFn, Rel. cbn [wp_root wp_names].
  rewrite String.eqb_refl.
  destruct names as [|a l]; [congruence|].
  apply String.eqb_neq in Hdot. rewrite Hdot. cbn [negb IsDir].
  now destruct isdir.
Qed.

(** The walk of an accessible tree below the root appends the entry of
    the tree, then the listing of what it contains. *)
Lemma walk_listing dir (n : node) :
  forall names files,
    names <> [] ->
    String.concat "/" names <> "." ->
    accessible n = true ->
    walk (mkPath dir names) n (listFilesFn dir) files =
      (None, extend files (entry_text names n :: listing names n)).
Proof.
  induction n as [|entries IH|e|e] using node_ind;
    intros names files Hne Hdot Hacc; try discriminate.
  - cbn [walk]. now rewrite listFilesFn_entry.
  - cbn [walk]. rewrite (extend_cons files).
    rewrite listFilesFn_entry by assumption.
    unfold entry_text at 1. cbn [is_dir listing].
    generalize (extend files [String.concat "/" names ++ "/"]). clear files.
    cbn [accessible] in Hacc.
    induction IH as [|[name child] rest Hchild _ IHrest]; intros files.
    + reflexivity.
    + apply andb_true_iff in Hacc. destruct Hacc as (Hc & Hrest).
      cbn [snd] in Hchild. unfold Join. cbn [wp_root wp_names].
      rewrite Hchild; auto using joined_snoc_not_dot.
      2:{ intros H. now destruct names. }
      rewrite (IHrest Hrest). now rewrite extend_extend.
Qed.

(** The walk from the root of an accessible directory appends the
    listing of the directory: the root itself is left out. *)
Lemma Walk_listing dir entries files :
  accessible (Dir entries) = true ->
  proper_names (Dir entries) = true ->
  Walk dir (Dir entries) (listFilesFn dir) files =
    (None, extend files (listing [] (Dir entries))).
Proof.
  unfold Walk. cbn [walk accessible proper_names listing].
  unfold listFilesFn at 1, Rel. cbn [wp_root wp_names].
  rewrite String.eqb_refl. cbn [String.eqb Ascii.eqb Bool.eqb negb].
  revert files. induction entries as [|[name child] rest IH]; intros files Hacc Hnames.
  - reflexivity.
  - apply andb_true_iff in Hacc. destruct Hacc as (Hc & Hrest).
    cbn [forallb fst] in Hnames. apply andb_true_iff in Hnames.
    destruct Hnames as (Hn & Hns). apply negb_true_iff, String.eqb_neq in Hn.
    unfold Join. cbn [wp_root wp_names app].
    rewrite walk_listing; [|discriminate|exact Hn|exact Hc].
    rewrite (IH _ Hrest Hns). now rewrite extend_extend.
Qed.

End Listing.

Section Tools.

Variable E : Type.
Variable env : Env E.

(** A payload [json.Unmarshal] rejects makes the tool panic. *)
Lemma ReadFile_malformed input err (x : E) :
  json_Unmarshal_ReadFileInput env input = Err err ->
  ReadFile env input x = (Panics err, x).
Proof. intros H. unfold ReadFile. now rewrite H. Qed.

Lemma ListFiles_malformed input err (x : E) :
  json_Unmarshal_ListFilesInput env input = Err err ->
  ListFiles env input x = (Panics err, x).
Proof. intros H. unfold ListFiles. now rewrite H. Qed.

Lemma listing_nonempty names entries :
  entries <> [] -> listing names (Dir entries) <> [].
Proof. destruct entries as [|[name child] rest]; [congruence|discriminate]. Qed.

(** C6, as the code has it.  On an accessible directory with at least
    one entry, the list-directory tool walks the tree rooted at the
    given path (the current directory ["."] when the path is empty or
    absent) and returns, as a JSON array of strings, the entries below
    the root in the order of the traversal, as paths relative to the
    root, a directory with the separator after it. *)
Theorem ListFiles_lists_the_tree input path (x : E) entries :
  json_Unmarshal_ListFilesInput env input = Ok path ->
  os_tree env (if path =? EmptyString then "." else path) x = Dir entries ->
  accessible (Dir entries) = true ->
  proper_names (Dir entries) = true ->
  entries <> [] ->
  ListFiles env input x =
    (Normal (json_array (json_string env) (listing [] (Dir entries)), None), x).
Proof.
  intros Hin Htree Hacc Hnames Hne. unfold ListFiles. rewrite Hin.
  cbn zeta. destruct (path =? EmptyString); cbn [negb];
    rewrite Htree, Walk_listing by assumption;
    pose proof (listing_nonempty [] Hne) as Hl;
    destruct (listing [] (Dir entries)); [congruence|reflexivity|congruence|reflexivity].
Qed.

(** C9.  On an empty directory the list-directory tool returns
    ["null"], the serialization of the nil slice, and not the empty
    JSON array. *)
Theorem ListFiles_empty_directory_is_null input path (x : E) :
  json_Unmarshal_ListFilesInput env input = Ok path ->
  os_tree env (if path =? EmptyString then "." else path) x = Dir [] ->
  ListFiles env input x = (Normal ("null", None), x)
  /\ "null" <> json_array (json_string env) [].
Proof.
  intros Hin Htree. split; [|discriminate].
  unfold ListFiles. rewrite Hin. cbn zeta.
  destruct (path =? EmptyString); cbn [negb];
    now rewrite Htree, Walk_listing by reflexivity.
Qed.

End Tools.

(** * The claims on the scripted world *)

(** C1, on the code.  A turn with two requests, the first with a
    payload that does not decode: the first dispatch panics, the
    second request is never dispatched, and the run ends there, with
    no next call of the backend. *)
Theorem tool_turn_with_malformed_request_panics :
  exists v w,
    Run Demo.env Demo.agent 3
      (Demo.world ["hi"] [Demo.reply 200 "badlist"; Demo.reply 200 "hello"])
    = Panicked v w
    /\ dispatches (log w) = [mkToolCall "read_file" Demo.bad_args]
    /\ length (chats (log w)) = 1.
Proof. do 2 eexists. split; [vm_compute; reflexivity|]. split; reflexivity. Qed.

(** C2, on the code.  A payload that does not decode makes both tools
    panic, and the panic ends the run. *)
Theorem malformed_arguments_panic :
  let x := ext (Demo.world [] []) in
  let v := mkError "json: cannot unmarshal number into Go struct field ReadFileInput.path of type string" in
  ReadFile Demo.env Demo.bad_args x = (Panics v, x)
  /\ (exists v', ListFiles Demo.env Demo.bad_args x = (Panics v', x))
  /\ (exists w,
        Run Demo.env Demo.agent 3
          (Demo.world ["hi"] [Demo.reply 200 "bad"; Demo.reply 200 "hello"])
        = Panicked v w).
Proof.
  cbv zeta. split; [reflexivity|]. split; eexists; vm_compute; reflexivity.
Qed.

(** C5 fails on an error that the backend reports in a body that
    parses: [Chat] returns no error, the run goes on with an empty
    assistant turn, prompts again and calls the backend again. *)
Lemma backend_error_goes_unnoticed :
  exists resp w,
    Demo.reply 404 Demo.error_body = Ok resp
    /\ reports_error resp = true
    /\ Run Demo.env Demo.agent 5
         (Demo.world ["hi"; "again"]
            [Demo.reply 404 Demo.error_body; Demo.reply 200 "hello"])
       = Returned None w
    /\ prints (log w)
       = [banner; prompt; assistant_line EmptyString;
          prompt; assistant_line "Hello!"; prompt]
    /\ length (chats (log w)) = 2.
Proof.
  do 2 eexists. split; [reflexivity|]. split; [reflexivity|].
  split; [vm_compute; reflexivity|]. split; reflexivity.
Qed.

(** A directory below the root that cannot be read ends the walk:
    the tool returns the error, and no listing. *)
Example ListFiles_unreadable_subdirectory :
  let x := ext (Demo.world [] []) in
  let err := mkError "open locked/private: permission denied" in
  Walk "locked" (Demo.tree "locked" x) (listFilesFn "locked") nil_slice
  = (Some err, mk_slice ["a.txt"])
  /\ ListFiles Demo.env (Demo.path_args "locked") x
     = (Normal (EmptyString, Some err), x).
Proof. cbv zeta. split; reflexivity. Qed.

(** C6 fails on an empty directory: the result is not the JSON array
    of the (empty) listing. *)
Lemma empty_listing_is_not_an_array :
  let x := ext (Demo.world [] []) in
  Demo.tree "empty" x = Dir []
  /\ ListFiles Demo.env (Demo.path_args "empty") x
     <> (Normal (json_array Demo.q (listing [] (Dir [])), None), x).
Proof. cbv zeta. split; [reflexivity|]. vm_compute. discriminate. Qed.

(** * The theorems at work on the scripted world *)

Lemma Run_returns_nil_on_end_of_input_witness :
  let w0 := Demo.world ["hi"] [Demo.reply 200 "hello"] in
  exists st w s x,
    Run Demo.env Demo.agent 1 w0 = Running st w
    /\ readUserInput st = true
    /\ getUserMessage Demo.agent (ext w) = ((s, false), x)
    /\ Run Demo.env Demo.agent (1 + 1) w0
       = Returned None (mkWorld x (log w ++ [EvPrint prompt; EvInput s false])).
Proof.
  intros w0. do 4 eexists.
  split; [vm_compute; reflexivity|].
  split; [reflexivity|]. split; [reflexivity|].
  eapply (@Run_returns_nil_on_end_of_input _ Demo.env Demo.agent 1 w0 _ _ _ _ 0);
    [vm_compute; reflexivity | reflexivity | reflexivity].
Defined.

Lemma executeTool_invokes_first_match_witness :
  let w := Demo.world [] [] in
  let input := Demo.path_args "notes.txt" in
  tools Demo.shadowing_agent
    = ([] ++ ReadFileDefinition Demo.env
          :: [ListFilesDefinition Demo.env; Demo.second_read_file])%list
  /\ Forall (fun t : ToolDefinition Demo.ext => Name t <> "read_file") []
  /\ Name (ReadFileDefinition Demo.env) = "read_file"
  /\ lookupTool (tools Demo.shadowing_agent) "read_file"
     = Some (ReadFileDefinition Demo.env)
  /\ executeTool Demo.shadowing_agent "read_file" input w
     = (Normal "remember",
        logged w [EvDispatch "read_file" input;
                  EvPrint (tool_trace "read_file" input)]).
Proof.
  intros w input.
  assert (H1 : tools Demo.shadowing_agent
               = ([] ++ ReadFileDefinition Demo.env
                     :: [ListFilesDefinition Demo.env; Demo.second_read_file])%list)
    by reflexivity.
  assert (H2 : Forall (fun t : ToolDefinition Demo.ext => Name t <> "read_file") [])
    by constructor.
  assert (H3 : Name (ReadFileDefinition Demo.env) = "read_file") by reflexivity.
  destruct (@executeTool_invokes_first_match _ Demo.shadowing_agent [] _ _
              "read_file" input w H1 H2 H3) as [Hl He].
  split; [exact H1|]. split; [exact H2|]. split; [exact H3|]. split; [exact Hl|].
  rewrite He. reflexivity.
Defined.



Lemma client_failure_aborts_run_witness :
  let w0 := Demo.world ["hi"; "again"] [Demo.reply 200 "hello"] in
  let err := mkError "dial tcp 127.0.0.1:11434: connect: connection refused" in
  exists st w conversation w1,
    Run Demo.env Demo.agent 1 w0 = Running st w
    /\ readInput Demo.agent st w = (Normal (Some conversation), w1)
    /\ ChatFails Demo.env (client Demo.agent) conversation (ollamaTools Demo.agent)
         (ext w1) err (ext w1)
    /\ Run Demo.env Demo.agent (1 + 1) w0
       = Returned (Some err)
           (mkWorld (ext w1)
              (log w1 ++ [EvChat conversation (ollamaTools Demo.agent) (Err err)])).
Proof.
  intros w0 err. do 4 eexists.
  split; [vm_compute; reflexivity|].
  split; [vm_compute; reflexivity|].
  split; [eapply transport_fails; reflexivity|].
  eapply (@client_failure_aborts_run _ Demo.env Demo.agent 1 w0 _ _ _ _ _ _ 0);
    [vm_compute; reflexivity | vm_compute; reflexivity
    | eapply transport_fails; reflexivity].
Defined.

Lemma text_exchanges_alternate_witness :
  let w0 := Demo.world ["hi"; "bye"; "more"]
              [Demo.reply 200 "hello"; Demo.reply 200 "bye"] in
  exists st w,
    log w0 = []
    /\ Run Demo.env Demo.agent 2 w0 = Running st w
    /\ forallb text_reply (chat_replies (log w)) = true
    /\ inputs (log w) = ["hi"; "bye"]
    /\ returned_turns (log w)
       = [mkMessage "assistant" "Hello!" []; mkMessage "assistant" "Goodbye." []]
    /\ conversation st
       = [mkMessage "user" "hi" []; mkMessage "assistant" "Hello!" [];
          mkMessage "user" "bye" []; mkMessage "assistant" "Goodbye." []]
    /\ prints (log w)
       = ["Chat with Ollama (use 'ctrl-c' to quit)" ++ String "010" EmptyString;
          String "027" ("[94mYou" ++ String "027" "[0m: ");
          String "027" ("[93mOllama" ++ String "027"
                          ("[0m: Hello!" ++ String "010" EmptyString));
          String "027" ("[94mYou" ++ String "027" "[0m: ");
          String "027" ("[93mOllama" ++ String "027"
                          ("[0m: Goodbye." ++ String "010" EmptyString))].
Proof.
  intros w0. do 2 eexists.
  split; [reflexivity|].
  split; [vm_compute; reflexivity|].
  split; [vm_compute; reflexivity|].
  split; [reflexivity|]. split; [reflexivity|].
  edestruct (@text_exchanges_alternate _ Demo.env Demo.agent 2 w0)
    as (_ & _ & Hc & _ & _ & Hp);
    [reflexivity | vm_compute; reflexivity | vm_compute; reflexivity |].
  split; [rewrite Hc; reflexivity | rewrite Hp; reflexivity].
Defined.

Lemma ListFiles_lists_the_tree_witness :
  let x := ext (Demo.world [] []) in
  let entries := [("a.txt", File); ("sub", Dir [])] in
  json_Unmarshal_ListFilesInput Demo.env (Demo.path_args "./data") = Ok "./data"
  /\ os_tree Demo.env "./data" x = Dir entries
  /\ accessible (Dir entries) = true
  /\ proper_names (Dir entries) = true
  /\ entries <> []
  /\ ListFiles Demo.env (Demo.path_args "./data") x
     = (Normal (json_array Demo.q ["a.txt"; "sub/"], None), x).
Proof.
  intros x entries.
  assert (Hne : entries <> []) by discriminate.
  repeat (split; [reflexivity|]). split; [exact Hne|].
  exact (ListFiles_lists_the_tree Demo.env (Demo.path_args "./data") (path:="./data")
           x eq_refl eq_refl eq_refl eq_refl Hne).
Defined.

Lemma ListFiles_empty_directory_is_null_witness :
  let x := ext (Demo.world [] []) in
  json_Unmarshal_ListFilesInput Demo.env (Demo.path_args "empty") = Ok "empty"
  /\ os_tree Demo.env "empty" x = Dir []
  /\ ListFiles Demo.env (Demo.path_args "empty") x = (Normal ("null", None), x).
Proof.
  intros x. repeat (split; [reflexivity|]).
  exact (proj1 (ListFiles_empty_directory_is_null Demo.env (Demo.path_args "empty")
                  (path:="empty") x eq_refl eq_refl)).
Defined.

(** * Further properties *)

Section Transcript.

Variable E : Type.
Variable env : Env E.
Variable a : Agent E.

(** The [if readUserInput] block: at most one read, no call of the
    backend and no dispatch; the conversation it gives is the
    transcript, with the user turn read behind it if input was
    awaited. *)
Lemma readInput_shape st (w : World E) :
  exists next w1 d,
    readInput a st w = (Normal next, w1)
    /\ log w1 = (log w ++ d)%list
    /\ chats d = [] /\ dispatches d = [] /\ length (inputs d) <= 1
    /\ match next with
       | Some conversation' =>
           exists more, conversation' = (conversation st ++ more)%list
                        /\ length more <= 1
       | None => readUserInput st = true
       end.
Proof.
  destruct (readUserInput st) eqn:Hread.
  - rewrite (readInput_reading a st w Hread).
    destruct (getUserMessage a (ext w)) as [[u ok] x]. cbn [fst snd].
    destruct ok; do 3 eexists; (split; [reflexivity|]); cbn [log];
      (split; [reflexivity|]); cbn; repeat split; auto.
    exists [user_message u]. cbn. auto.
  - unfold readInput. rewrite Hread. exists (Some (conversation st)), w, [].
    rewrite app_nil_r. cbn. repeat split; auto.
    exists []. rewrite app_nil_r. cbn. auto.
Qed.

(** What one turn of the loop sends to the backend: nothing when the
    input is exhausted, and otherwise, once, the transcript with at
    most the user turn read behind it; a turn after which the loop
    goes on has appended the assistant turn to what it sent. *)
Lemma iteration_chats st (w : World E) o w' :
  iteration env a st w = (o, w') ->
  exists d,
    log w' = (log w ++ d)%list
    /\ ((chats d = [] /\ o = Normal (Return None))
        \/ exists more,
             chats d = [(conversation st ++ more)%list]
             /\ match o with
                | Normal (Continue st1) =>
                    exists m rest,
                      conversation st1 = (conversation st ++ more ++ m :: rest)%list
                | _ => True
                end).
Proof.
  destruct (readInput_shape st w) as (next & w1 & d1 & Hin & Hl1 & Hc1 & _ & _ & Hnext).
  destruct next as [conversation'|].
  2:{ unfold iteration, bind. rewrite Hin. intros [= <- <-]. exists d1. auto. }
  destruct Hnext as (more & -> & _).
  destruct (Chat_returns env (client a) (conversation st ++ more)%list
              (ollamaTools a) w1) as (r & x2 & Hchat).
  rewrite (iteration_after_chat env a st w Hin Hchat). cbn zeta.
  destruct r as [response|err].
  2:{ intros [= <- <-]. eexists. cbn. rewrite Hl1, <- app_assoc.
      split; [reflexivity|]. right. exists more.
      unfold chats in *. rewrite flat_map_app, Hc1. cbn. auto. }
  destruct (ToolCalls (Message response)) as [|c calls].
  - intros [= <- <-]. eexists. cbn. rewrite Hl1, <- !app_assoc.
    split; [reflexivity|]. right. exists more.
    unfold chats in *. rewrite flat_map_app, Hc1. cbn. split; [reflexivity|].
    exists (Message response), []. reflexivity.
  - destruct (runToolCalls a (c :: calls) [] _) as [[rs|v] w3] eqn:Hrun;
      apply runToolCalls_log in Hrun; destruct Hrun as (d3 & Hl3 & Hc3 & _);
      cbn in Hl3; intros [= <- <-]; eexists;
      rewrite Hl3, Hl1, <- !app_assoc; (split; [reflexivity|]); right;
      exists more; unfold chats in *; rewrite !flat_map_app, Hc1, Hc3; cbn;
      (split; [reflexivity|]); auto.
    eexists _, _. reflexivity.
Qed.


(** The transcript is only appended to: after [n] turns of the loop
    it is the transcript before them with at least [n] turns behind
    it. *)
Theorem transcript_only_grows n st (w : World E) st' w' :
  iterate env a n st w = Running st' w' ->
  exists suffix,
    conversation st' = (conversation st ++ suffix)%list /\ n <= length suffix.
Proof.
  revert st w. induction n as [|n IH]; intros st w; cbn [iterate].
  - intros [= <- <-]. exists []. rewrite app_nil_r. auto.
  - destruct (iteration env a st w) as [[[st1|err]|v] w1] eqn:Hit; try discriminate.
    intros H. apply IH in H. destruct H as (suffix & -> & Hlen).
    apply iteration_chats in Hit. destruct Hit as (d & _ & [[_ Ho]|(more & _ & Hst)]);
      [discriminate|].
    destruct Hst as (m & rest & ->).
    exists ((more ++ m :: rest) ++ suffix)%list. rewrite <- !app_assoc.
    split; [reflexivity|]. rewrite !length_app. cbn. lia.
Qed.



End Transcript.

Section Console.

Variable E : Type.
Variable env : Env E.
Variable a : Agent E.

(** The transcript at a later point of a run is the transcript at an
    earlier point with at least one turn behind it for each turn of
    the loop in between. *)
Theorem Run_transcript_is_append_only n m (w0 : World E) st w st' w' :
  Run env a n w0 = Running st w ->
  Run env a (n + m) w0 = Running st' w' ->
  exists suffix,
    conversation st' = (conversation st ++ suffix)%list /\ m <= length suffix.
Proof.
  intros Hn Hnm. rewrite Run_add, Hn in Hnm.
  eapply transcript_only_grows; eauto.
Qed.

(** What the requests of a turn that completes put on the console:
    the trace lines of the requests whose tool is in the catalog, in
    the order of the requests. *)
Lemma runToolCalls_prints calls acc (w : World E) rs w' :
  runToolCalls a calls acc w = (Normal rs, w') ->
  exists d, log w' = (log w ++ d)%list /\ prints d = traces a calls.
Proof.
  revert acc w. induction calls as [|[n i] calls IH]; intros acc w.
  - cbn. intros [= <- <-]. exists []. now rewrite app_nil_r.
  - rewrite runToolCalls_cons. cbn [tc_Name tc_Arguments].
    unfold traces. cbn [flat_map tc_Name tc_Arguments]. fold (traces a calls).
    destruct (lookupTool (tools a) n) as [d|] eqn:Hl.
    + rewrite (executeTool_found a n i w Hl). cbn zeta.
      destruct (Function d i (ext w)) as [[r|v] x]; [|discriminate].
      intros H. apply IH in H. destruct H as (d' & Hl' & Hp).
      exists ([EvDispatch n i; EvPrint (tool_trace n i)] ++ d')%list.
      rewrite Hl'. cbn [log]. rewrite <- app_assoc. split; [reflexivity|].
      unfold prints in *. rewrite flat_map_app, Hp. reflexivity.
    + rewrite (executeTool_not_found a n i w Hl).
      intros H. apply IH in H. destruct H as (d' & Hl' & Hp).
      exists ([EvDispatch n i] ++ d')%list.
      rewrite Hl'. cbn [log]. rewrite <- app_assoc. split; [reflexivity|].
      unfold prints in *. rewrite flat_map_app, Hp. reflexivity.
Qed.

Lemma assistant_line_not_a_trace content calls :
  ~ In (assistant_line content) (traces a calls).
Proof.
  unfold traces. rewrite in_flat_map. intros (c & _ & Hin).
  destruct (lookupTool (tools a) (tc_Name c)); [|exact Hin].
  destruct Hin as [H|[]]. unfold tool_trace, assistant_line, esc in H.
  cbn in H. discriminate.
Qed.

(** While the requests of a turn are dispatched, the backend is not
    called and no input is read; the dispatches are the first [k]
    requests, in their order: all of them when the turn completes,
    and, when a tool panics, the requests up to that one, the later
    ones being left alone. *)
Theorem dispatches_are_a_prefix_of_the_requests calls acc (w : World E) o w' :
  runToolCalls a calls acc w = (o, w') ->
  exists d k,
    log w' = (log w ++ d)%list
    /\ chats d = [] /\ inputs d = []
    /\ dispatches d = firstn k calls
    /\ match o with
       | Normal _ => k = length calls
       | Panics _ => 0 < k <= length calls
       end.
Proof.
  intros H. apply runToolCalls_log in H.
  destruct H as (d & Hl & Hc & Hi & Hd). exists d.
  destruct o as [rs|v].
  - exists (length calls). rewrite firstn_all. auto.
  - destruct Hd as (k & Hk & Hlt). exists (S k). repeat split; auto; lia.
Qed.

(** The text of an assistant turn that requests tools is not shown:
    after the call of the backend, a turn that completes writes the
    trace lines of the requests whose tool is in the catalog, and
    nothing else. *)
Theorem tool_turn_shows_traces_only st (w : World E) conversation w1 response w2 rs w3 :
  readInput a st w = (Normal (Some conversation), w1) ->
  Chat env (client a) conversation (ollamaTools a) w1 = (Normal (Ok response), w2) ->
  ToolCalls (Message response) <> [] ->
  iteration env a st w
    = (Normal (Continue
                 (mkLoop (conversation
                            ++ [Message response;
                                user_message ("Tool results: " ++ fmt_v rs)])%list
                         false)), w3) ->
  exists d,
    log w3 = (log w1 ++ EvChat conversation (ollamaTools a) (Ok response) :: d)%list
    /\ prints d = traces a (ToolCalls (Message response))
    /\ ~ In (assistant_line (Content (Message response))) (prints d).
Proof.
  intros Hin Hchat Hne Hit.
  rewrite (iteration_after_chat env a st w Hin Hchat) in Hit. cbn zeta in Hit.
  destruct (Chat_returns env (client a) conversation (ollamaTools a) w1)
    as (r & x2 & Hchat'). rewrite Hchat in Hchat'. injection Hchat' as _ Hw2.
  destruct (ToolCalls (Message response)) as [|c calls] eqn:Hcalls; [congruence|].
  destruct (runToolCalls a (c :: calls) [] _) as [[rs'|v] w3'] eqn:Hrun;
    [|discriminate].
  injection Hit as _ <-.
  apply runToolCalls_prints in Hrun. destruct Hrun as (d & Hl & Hp).
  exists d. rewrite Hl. unfold logged. cbn [log]. rewrite Hw2. cbn [log].
  rewrite <- app_assoc. split; [reflexivity|]. split; [exact Hp|].
  rewrite Hp. apply assistant_line_not_a_trace.
Qed.

(** [Chat] gives the response the body decodes to as soon as the
    request is built, the transport answers and the body is read and
    parsed, whatever the status of the answer; and only then. *)
Theorem Chat_succeeds_iff c messages ts (w : World E) r x' :
  Chat env c messages ts w = (Normal (Ok r), mkWorld x' (log w))
  <-> exists jsonData req resp body,
        json_Marshal_request env (mkRequest (model c) messages ts false) = Ok jsonData
        /\ http_NewRequest env "POST" (baseURL c ++ "/api/chat") jsonData = Ok req
        /\ http_Do env (Header_Set "Content-Type" "application/json" req) (ext w)
           = (Ok resp, x')
        /\ Body resp = Ok body
        /\ json_Unmarshal_response env body = Ok r.
Proof.
  destruct w as [x lg]. unfold Chat. cbn [ext log]. split.
  - destruct (json_Marshal_request env _) as [jsonData|e] eqn:H1; [|discriminate].
    destruct (http_NewRequest env _ _ _) as [req|e] eqn:H2; [|discriminate].
    run_m. destruct (http_Do env _ x) as [[resp|e] x1] eqn:H3; cbn; [|discriminate].
    destruct (Body resp) as [body|e] eqn:H4; [|discriminate].
    destruct (json_Unmarshal_response env body) as [r'|e] eqn:H5; [|discriminate].
    intros [= <- <-]. exists jsonData, req, resp, body. auto.
  - intros (jsonData & req & resp & body & H1 & H2 & H3 & H4 & H5).
    rewrite H1, H2. run_m. rewrite H3. cbn. now rewrite H4, H5.
Qed.

(** When the client fails, [main] ends with the failed call and the
    line that shows the error, and the error has been returned by
    [Run]. *)
Theorem main_reports_client_failure n (w0 : World E) st w conversation w1 err x fuel :
  Run env a n w0 = Running st w ->
  readInput a st w = (Normal (Some conversation), w1) ->
  ChatFails env (client a) conversation (ollamaTools a) (ext w1) err x ->
  main env a (n + S fuel) w0 =
    Returned (Some err)
      (mkWorld x (log w1 ++ [EvChat conversation (ollamaTools a) (Err err);
                             EvPrint ("Error: " ++ Error err ++ nl)])).
Proof.
  intros Hrun Hin Hfail. unfold main. rewrite Run_add, Hrun. cbn [iterate].
  apply Chat_fails_iff in Hfail.
  rewrite (iteration_after_chat env a st w Hin Hfail).
  cbn. now rewrite <- app_assoc.
Qed.

End Console.

Section Errors.

Variable E : Type.
Variable env : Env E.

(** The walk function on a path of the walk: it returns the error it
    is given, and none of its own. *)
Lemma listFilesFn_returns dir names info err files :
  exists files',
    listFilesFn dir (mkPath dir names) info err files = (err, files')
    /\ (err <> None -> files' = files).
Proof.
  unfold listFilesFn, Rel. cbn [wp_root wp_names]. rewrite String.eqb_refl.
  destruct err as [e|]; [eauto|].
  destruct names as [|n l];
    [|destruct (negb (String.concat "/" (n :: l) =? "."));
      [destruct info as [[[|]]|]|]];
    eexists; (split; [reflexivity|congruence]).
Qed.

(** The walk ends with the error of the first file or directory that
    cannot be examined, if there is one. *)
Lemma walk_first_error dir (n : node) :
  forall names files,
    fst (walk (mkPath dir names) n (listFilesFn dir) files) = first_error n.
Proof.
  induction n as [|entries IH|e|e] using node_ind; intros names files;
    cbn [walk first_error].
  - destruct (listFilesFn_returns dir names (Some (mkFileInfo false)) None files)
      as (f & -> & _). reflexivity.
  - destruct (listFilesFn_returns dir names (Some (mkFileInfo true)) None files)
      as (f & -> & _). clear files. revert f.
    induction IH as [|[name child] rest Hchild _ IHrest]; intros f; [reflexivity|].
    cbn [snd] in Hchild. unfold Join. cbn [wp_root wp_names].
    specialize (Hchild (names ++ [name])%list f).
    destruct (walk _ child (listFilesFn dir) f) as [[err|] f'];
      cbn [fst] in Hchild; rewrite <- Hchild; [reflexivity|apply IHrest].
  - destruct (listFilesFn_returns dir names (Some (mkFileInfo true)) (Some e) files)
      as (f & -> & _). reflexivity.
  - destruct (listFilesFn_returns dir names None (Some e) files)
      as (f & -> & _). reflexivity.
Qed.

Lemma accessible_iff_no_error (n : node) :
  accessible n = true <-> first_error n = None.
Proof.
  induction n as [|entries IH|e|e] using node_ind; cbn [accessible first_error].
  - split; reflexivity.
  - induction IH as [|[name child] rest Hchild _ IHrest]; [tauto|].
    cbn [snd] in Hchild. rewrite andb_true_iff, Hchild, IHrest.
    destruct (first_error child); split; try tauto; discriminate.
  - split; discriminate.
  - split; discriminate.
Qed.

(** The list-directory tool returns an error exactly when a file or
    a directory of the tree cannot be examined (the path itself
    missing included): the error of the first one in the order of the
    traversal, with an empty result, whatever was listed before. *)
Theorem ListFiles_returns_the_first_error input path (x : E) :
  json_Unmarshal_ListFilesInput env input = Ok path ->
  let tree := os_tree env (if path =? EmptyString then "." else path) x in
  exists result,
    ListFiles env input x = (Normal (result, first_error tree), x)
    /\ (first_error tree <> None -> result = EmptyString).
Proof.
  intros Hin tree. unfold ListFiles. rewrite Hin. cbn zeta.
  assert (Hdir : (if negb (path =? EmptyString) then path else ".")
                 = (if path =? EmptyString then "." else path))
    by now destruct (path =? EmptyString).
  rewrite Hdir. fold tree. unfold Walk.
  pose proof (walk_first_error (if path =? EmptyString then "." else path)
                tree [] nil_slice) as Hw.
  destruct (walk _ tree _ nil_slice) as [[err|] files]; cbn [fst] in Hw; rewrite <- Hw.
  - eauto.
  - destruct files; cbn; eexists; (split; [reflexivity|congruence]).
Qed.

(** On a path that is a file and not a directory, the list-directory
    tool returns ["null"], and no error. *)
Theorem ListFiles_on_a_file_is_null input path (x : E) :
  json_Unmarshal_ListFilesInput env input = Ok path ->
  os_tree env (if path =? EmptyString then "." else path) x = File ->
  ListFiles env input x = (Normal ("null", None), x).
Proof.
  intros Hin Htree. unfold ListFiles. rewrite Hin. cbn zeta.
  destruct (path =? EmptyString); cbn [negb]; rewrite Htree;
    unfold Walk, walk, listFilesFn, Rel; cbn [wp_root wp_names];
    rewrite String.eqb_refl; reflexivity.
Qed.

End Errors.

Section Schemas.

Variable E : Type.

Lemma binding_app k (m1 m2 : list (string * Schema)) :
  binding k (m1 ++ m2) =
    match binding k m1 with Some v => Some v | None => binding k m2 end.
Proof.
  induction m1 as [|[k' v] m1 IH]; cbn; [reflexivity|].
  now destruct (k' =? k).
Qed.

Lemma binding_map_set k k' v (m : list (string * Schema)) :
  binding k (map_set k' v m) = if k' =? k then Some v else binding k m.
Proof.
  unfold map_set. rewrite binding_app. cbn [binding].
  induction m as [|[k1 v1] m IH]; cbn [filter binding fst negb].
  - now destruct (k' =? k).
  - destruct (k1 =? k') eqn:H1; cbn [negb binding].
    + apply String.eqb_eq in H1. subst k1. rewrite IH.
      now destruct (k' =? k).
    + destruct (k1 =? k) eqn:H2; [|exact IH].
      apply String.eqb_eq in H2. subst k1. rewrite String.eqb_sym in H1.
      now rewrite H1.
Qed.

Lemma keys_map_set k v (m : list (string * Schema)) :
  NoDup (map fst m) -> NoDup (map fst (map_set k v m)).
Proof.
  intros Hm. unfold map_set. rewrite map_app. cbn.
  assert (Hf : NoDup (map fst (filter (fun kv => negb (fst kv =? k)) m))).
  { induction m as [|[k1 v1] m IH]; cbn; [constructor|].
    inversion Hm as [|? ? Hnin Hrest]; subst.
    destruct (negb (k1 =? k)); cbn; [|auto].
    constructor; [|auto]. intros Hin. apply Hnin.
    apply in_map_iff in Hin. destruct Hin as (kv & <- & Hkv).
    apply filter_In in Hkv. apply in_map. tauto. }
  apply NoDup_app; [exact Hf|repeat constructor; intros []|].
  intros k1 Hin [<-|[]]. apply in_map_iff in Hin. destruct Hin as (kv & Hk & Hkv).
  apply filter_In in Hkv. destruct Hkv as [_ Hneq].
  apply negb_true_iff, String.eqb_neq in Hneq. congruence.
Qed.

Lemma fold_map_set k pairs (m : list (string * Schema)) :
  binding k (fold_left (fun m pair => map_set (fst pair) (snd pair) m) pairs m) =
    match last_binding k pairs with Some v => Some v | None => binding k m end.
Proof.
  revert m. induction pairs as [|[k' v] pairs IH]; intros m; cbn [fold_left last_binding];
    [reflexivity|].
  rewrite IH. cbn [fst snd]. rewrite binding_map_set.
  destruct (last_binding k pairs); [reflexivity|]. now destruct (k' =? k).
Qed.

Lemma fold_map_set_keys pairs (m : list (string * Schema)) :
  NoDup (map fst m) ->
  NoDup (map fst (fold_left (fun m pair => map_set (fst pair) (snd pair) m) pairs m)).
Proof.
  revert m. induction pairs as [|[k v] pairs IH]; intros m Hm; cbn [fold_left];
    [exact Hm|].
  apply IH. now apply keys_map_set.
Qed.

(** What the backend is told of a tool: its name and description, the
    type tags ["function"] and ["object"], no required parameter, and
    the properties of its schema as a map: one binding for each key,
    with the value the schema gives it last, and none when the schema
    has no properties. *)
Theorem toOllamaTool_keeps_the_schema (tool : ToolDefinition E) :
  let t := toOllamaTool tool in
  ot_Type t = "function"
  /\ ot_Name t = Name tool
  /\ ot_Description t = Description tool
  /\ p_type (ot_Parameters t) = "object"
  /\ p_required (ot_Parameters t) = []
  /\ NoDup (map fst (p_properties (ot_Parameters t)))
  /\ forall k,
       binding k (p_properties (ot_Parameters t)) =
         match Properties (InputSchema tool) with
         | Some pairs => last_binding k pairs
         | None => None
         end.
Proof.
  cbv zeta. unfold toOllamaTool. cbn [ot_Type ot_Name ot_Description ot_Parameters
                                       p_type p_required p_properties].
  repeat (split; [reflexivity|]).
  destruct (Properties (InputSchema tool)) as [pairs|]; split.
  - apply fold_map_set_keys. constructor.
  - intros k. rewrite fold_map_set. now destruct (last_binding k pairs).
  - constructor.
  - reflexivity.
Qed.

End Schemas.

Section States.

Variable E : Type.
Variable env : Env E.
Variable a : Agent E.

(** After a turn of the loop that goes on, the loop awaits input
    exactly when the assistant turn the backend returned in that turn
    requested no tool: then the transcript is what was sent with the
    assistant turn behind it; otherwise every request was dispatched
    and the transcript is what was sent with the assistant turn and
    one synthetic user turn behind it, which holds the result of each
    dispatch behind the name of its tool. *)
Theorem iteration_next_state st (w : World E) st1 w1 :
  iteration env a st w = (Normal (Continue st1), w1) ->
  exists sent w0 response w2,
    readInput a st w = (Normal (Some sent), w0)
    /\ Chat env (client a) sent (ollamaTools a) w0 = (Normal (Ok response), w2)
    /\ (readUserInput st1 = true <-> ToolCalls (Message response) = [])
    /\ (ToolCalls (Message response) = [] ->
        conversation st1 = (sent ++ [Message response])%list)
    /\ (ToolCalls (Message response) <> [] ->
        exists results,
          Dispatched a (ToolCalls (Message response))
            (logged w2 [EvChat sent (ollamaTools a) (Ok response)]) results w1
          /\ conversation st1
             = (sent ++ [Message response;
                         mkMessage "user"
                           (results_text (ToolCalls (Message response)) results)
                           []])%list).
Proof.
  destruct (readInput_shape a st w) as (next & w0 & d1 & Hin & _).
  destruct next as [sent|].
  2:{ unfold iteration, bind. rewrite Hin. discriminate. }
  destruct (Chat_returns env (client a) sent (ollamaTools a) w0)
    as (r & x2 & Hchat).
  rewrite (iteration_after_chat env a st w Hin Hchat). cbn zeta.
  destruct r as [response|err]; [|discriminate].
  intros Hit. exists sent, w0, response, (mkWorld x2 (log w0)).
  split; [exact Hin|]. split; [exact Hchat|].
  destruct (ToolCalls (Message response)) as [|c calls] eqn:Hcalls.
  - injection Hit as <- <-. cbn [readUserInput conversation].
    repeat split; auto. congruence.
  - destruct (runToolCalls a (c :: calls) [] _) as [[rs|v] w3] eqn:Hrun;
      [|discriminate].
    injection Hit as <- <-. cbn [readUserInput conversation].
    split; [split; discriminate|]. split; [discriminate|]. intros _.
    apply runToolCalls_Dispatched in Hrun. destruct Hrun as (results & Hd & ->).
    exists results. split; [exact Hd|reflexivity].
Qed.

Lemma lookupTool_In (ts : list (ToolDefinition E)) name d :
  lookupTool ts name = Some d -> In d ts.
Proof.
  induction ts as [|t ts IH]; cbn; [discriminate|].
  destruct (Name t =? name); [intros [= <-]; auto | auto].
Qed.

(** The loop has no panic of its own: with a catalog of tools that
    never panic, a run never panics. *)
Theorem Run_panics_only_in_tools :
  (forall t, In t (tools a) ->
             forall input x v, fst (Function t input x) <> Panics v) ->
  forall fuel (w0 : World E) v w, Run env a fuel w0 <> Panicked v w.
Proof.
  intros Hsafe.
  assert (Hexec : forall name input (w : World E) v w',
             executeTool a name input w <> (Panics v, w')).
  { intros name input w v w'.
    destruct (lookupTool (tools a) name) as [d|] eqn:Hl.
    - rewrite (executeTool_found a name input w Hl). cbn zeta.
      pose proof (Hsafe d (lookupTool_In _ _ Hl) input (ext w)) as Hd.
      destruct (Function d input (ext w)) as [[r|v'] x]; [discriminate|].
      exfalso. now apply (Hd v').
    - rewrite (executeTool_not_found a name input w Hl). discriminate. }
  assert (Hcalls : forall calls acc (w : World E) v w',
             runToolCalls a calls acc w <> (Panics v, w')).
  { induction calls as [|c calls IH]; intros acc w v w'; [discriminate|].
    rewrite runToolCalls_cons.
    destruct (executeTool a (tc_Name c) (tc_Arguments c) w) as [[r|v'] w1] eqn:He;
      [apply IH|]. exfalso. now apply (Hexec _ _ _ _ _ He). }
  assert (Hit : forall st (w : World E) v w', iteration env a st w <> (Panics v, w')).
  { intros st w v w'.
    destruct (readInput_shape a st w) as (next & w1 & d1 & Hin & _).
    destruct next as [conversation'|].
    2:{ unfold iteration, bind. rewrite Hin. discriminate. }
    destruct (Chat_returns env (client a) conversation' (ollamaTools a) w1)
      as (r & x2 & Hchat).
    rewrite (iteration_after_chat env a st w Hin Hchat). cbn zeta.
    destruct r as [response|err]; [|discriminate].
    destruct (ToolCalls (Message response)) as [|c calls]; [discriminate|].
    destruct (runToolCalls a (c :: calls) [] _) as [[rs|v'] w3] eqn:Hrun;
      [discriminate|]. exfalso. now apply (Hcalls _ _ _ _ _ Hrun). }
  assert (Hiter : forall fuel st (w : World E) v w',
             iterate env a fuel st w <> Panicked v w').
  { induction fuel as [|fuel IH]; intros st w v w'; cbn [iterate]; [discriminate|].
    destruct (iteration env a st w) as [[[st1|err]|v'] w1] eqn:Hi;
      [apply IH|discriminate|]. exfalso. now apply (Hit _ _ _ _ Hi). }
  intros fuel w0 v w. unfold Run, emit. apply Hiter.
Qed.


End States.

Section Autonomy.

Variable E : Type.
Variable env : Env E.
Variable a : Agent E.

Lemma runToolCalls_returns calls acc (w : World E) :
  (forall t, In t (tools a) ->
             forall input x v, fst (Function t input x) <> Panics v) ->
  exists rs w', runToolCalls a calls acc w = (Normal rs, w').
Proof.
  intros Hsafe. revert acc w. induction calls as [|c calls IH]; intros acc w.
  - cbn. unfold ret. eauto.
  - rewrite runToolCalls_cons.
    destruct (lookupTool (tools a) (tc_Name c)) as [d|] eqn:Hl.
    + rewrite (executeTool_found a _ (tc_Arguments c) w Hl). cbn zeta.
      pose proof (Hsafe d (lookupTool_In _ _ Hl) (tc_Arguments c) (ext w)) as Hd.
      destruct (Function d (tc_Arguments c) (ext w)) as [[r|v'] x]; [apply IH|].
      exfalso. now apply (Hd v').
    + rewrite (executeTool_not_found a _ (tc_Arguments c) w Hl). apply IH.
Qed.

(** The loop puts no bound on the turns it takes without the user:
    with a backend that requests tools in every answer and tools that
    return, it goes on for any number of turns, calls the backend
    once in each, and reads no input. *)
Theorem tool_requests_keep_the_loop_going :
  (forall conversation (w : World E),
      exists response x,
        Chat env (client a) conversation (ollamaTools a) w
          = (Normal (Ok response), mkWorld x (log w))
        /\ ToolCalls (Message response) <> []) ->
  (forall t, In t (tools a) ->
             forall input x v, fst (Function t input x) <> Panics v) ->
  forall fuel st (w : World E),
    readUserInput st = false ->
    exists st' w' d,
      iterate env a fuel st w = Running st' w'
      /\ readUserInput st' = false
      /\ log w' = (log w ++ d)%list
      /\ inputs d = []
      /\ length (chats d) = fuel.
Proof.
  intros Hchat Hsafe. induction fuel as [|fuel IH]; intros st w Hread; cbn [iterate].
  - exists st, w, []. rewrite app_nil_r. auto.
  - assert (Hin : readInput a st w = (Normal (Some (conversation st)), w)).
    { unfold readInput. now rewrite Hread. }
    destruct (Hchat (conversation st) w) as (response & x & Hc & Hne).
    rewrite (iteration_after_chat env a st w Hin Hc). cbn zeta.
    destruct (ToolCalls (Message response)) as [|c calls] eqn:Hcalls; [congruence|].
    destruct (runToolCalls_returns (c :: calls) []
                (logged (mkWorld x (log w))
                   [EvChat (conversation st) (ollamaTools a) (Ok response)]) Hsafe)
      as (rs & w3 & Hrun).
    rewrite Hrun.
    destruct (IH (mkLoop (conversation st
                            ++ [Message response;
                                user_message ("Tool results: " ++ fmt_v rs)])%list
                         false) w3 eq_refl)
      as (st' & w' & d & Hit & Hr & Hl & Hi & Hlen).
    apply runToolCalls_log in Hrun. destruct Hrun as (d3 & Hl3 & Hc3 & Hi3 & _).
    exists st', w', (EvChat (conversation st) (ollamaTools a) (Ok response) :: d3 ++ d)%list.
    split; [exact Hit|]. split; [exact Hr|].
    rewrite Hl, Hl3. cbn [logged log]. rewrite <- !app_assoc. cbn [app].
    split; [reflexivity|].
    unfold inputs, chats in *. cbn [flat_map app]. split.
    + now rewrite flat_map_app, Hi3, Hi.
    + cbn [length]. rewrite flat_map_app, Hc3. cbn [app]. now rewrite Hlen.
Qed.

End Autonomy.

(** * The further properties at work on the scripted world *)

Lemma tool_turn_completes_witness :
  let w := Demo.world ["hi"] [Demo.reply 200 "three"] in
  let calls := [mkToolCall "list_files" (Demo.path_args "./data");
                mkToolCall "write_file" (Demo.path_args "x");
                mkToolCall "read_file" (Demo.path_args "config.yaml")] in
  let results := [json_array Demo.q ["a.txt"; "sub/"];
                  "tool not found";
                  "open config.yaml: no such file or directory"] in
  let response := mkResponse (mkMessage "assistant" EmptyString calls) true in
  exists w1 w2 w3,
    readInput Demo.agent Run_start w = (Normal (Some [mkMessage "user" "hi" []]), w1)
    /\ Chat Demo.env (client Demo.agent) [mkMessage "user" "hi" []]
         (ollamaTools Demo.agent) w1
       = (Normal (Ok response), w2)
    /\ ToolCalls (Message response) <> []
    /\ Dispatched Demo.agent calls
         (logged w2 [EvChat [mkMessage "user" "hi" []] (ollamaTools Demo.agent)
                       (Ok response)])
         results w3
    /\ iteration Demo.env Demo.agent Run_start w
       = (Normal
            (Continue
               (mkLoop
                  [mkMessage "user" "hi" [];
                   mkMessage "assistant" EmptyString calls;
                   mkMessage "user"
                     ("Tool results: [Tool list_files result: "
                        ++ json_array Demo.q ["a.txt"; "sub/"]
                        ++ " Tool write_file result: tool not found"
                        ++ " Tool read_file result: open config.yaml: no such file or directory]")
                     []]
                  false)), w3).
Proof.
  intros w calls results response. do 3 eexists.
  split; [vm_compute; reflexivity|].
  split; [vm_compute; reflexivity|].
  split; [discriminate|].
  split.
  - eapply dispatched_next; [vm_compute; reflexivity|].
    eapply dispatched_next; [vm_compute; reflexivity|].
    eapply dispatched_next; [vm_compute; reflexivity|].
    apply dispatched_none.
  - edestruct tool_turn_completes
      with (env := Demo.env) (a := Demo.agent) (st := Run_start) (w := w)
           (sent := [mkMessage "user" "hi" []]) (response := response)
           (results := results) as (Hit & _);
      [vm_compute; reflexivity | vm_compute; reflexivity | discriminate | | exact Hit].
    eapply dispatched_next; [vm_compute; reflexivity|].
    eapply dispatched_next; [vm_compute; reflexivity|].
    eapply dispatched_next; [vm_compute; reflexivity|].
    apply dispatched_none.
Defined.

Lemma Run_transcript_is_append_only_witness :
  let w0 := Demo.world ["hi"; "bye"] [Demo.reply 200 "list"; Demo.reply 200 "hello";
                                      Demo.reply 200 "bye"] in
  exists st w st' w',
    Run Demo.env Demo.agent 1 w0 = Running st w
    /\ Run Demo.env Demo.agent (1 + 2) w0 = Running st' w'
    /\ exists suffix,
         conversation st' = (conversation st ++ suffix)%list /\ 2 <= length suffix.
Proof.
  intros w0. do 4 eexists.
  split; [vm_compute; reflexivity|].
  split; [vm_compute; reflexivity|].
  eapply (@Run_transcript_is_append_only _ Demo.env Demo.agent 1 2 w0);
    vm_compute; reflexivity.
Defined.

Lemma dispatches_are_a_prefix_of_the_requests_witness :
  let w := Demo.world [] [] in
  let calls := [mkToolCall "write_file" (Demo.path_args "x");
                mkToolCall "read_file" Demo.bad_args;
                mkToolCall "list_files" (Demo.path_args "./data")] in
  exists v w',
    runToolCalls Demo.agent calls [] w = (Panics v, w')
    /\ dispatches (log w') = firstn 2 calls
    /\ exists d k,
         log w' = (log w ++ d)%list
         /\ chats d = [] /\ inputs d = []
         /\ dispatches d = firstn k calls
         /\ 0 < k <= length calls.
Proof.
  intros w calls. do 2 eexists.
  split; [vm_compute; reflexivity|]. split; [reflexivity|].
  eapply (@dispatches_are_a_prefix_of_the_requests _ Demo.agent calls [] w (Panics _)).
  vm_compute. reflexivity.
Defined.

Lemma tool_turn_shows_traces_only_witness :
  let w := Demo.world ["hi"] [Demo.reply 200 "three"] in
  let rs := ["Tool list_files result: " ++ json_array Demo.q ["a.txt"; "sub/"];
             "Tool write_file result: tool not found";
             "Tool read_file result: open config.yaml: no such file or directory"] in
  exists conversation w1 response w2 w3,
    readInput Demo.agent Run_start w = (Normal (Some conversation), w1)
    /\ Chat Demo.env (client Demo.agent) conversation (ollamaTools Demo.agent) w1
       = (Normal (Ok response), w2)
    /\ ToolCalls (Message response) <> []
    /\ iteration Demo.env Demo.agent Run_start w
       = (Normal (Continue
                    (mkLoop (conversation
                               ++ [Message response;
                                   user_message ("Tool results: " ++ fmt_v rs)])%list
                            false)), w3)
    /\ exists d,
         log w3 = (log w1 ++ EvChat conversation (ollamaTools Demo.agent) (Ok response)
                              :: d)%list
         /\ prints d = traces Demo.agent (ToolCalls (Message response))
         /\ ~ In (assistant_line (Content (Message response))) (prints d).
Proof.
  intros w rs. do 5 eexists.
  split; [vm_compute; reflexivity|].
  split; [vm_compute; reflexivity|].
  split; [discriminate|].
  split; [vm_compute; reflexivity|].
  eapply (@tool_turn_shows_traces_only _ Demo.env Demo.agent Run_start w _ _ _ _ rs);
    [vm_compute; reflexivity | vm_compute; reflexivity | discriminate
    | vm_compute; reflexivity].
Defined.

Lemma Chat_succeeds_iff_witness :
  let w := Demo.world [] [Demo.reply 404 Demo.error_body] in
  let c := client Demo.agent in
  exists x',
    http_Do Demo.env
      (Header_Set "Content-Type" "application/json"
         (mkHttpRequest "POST" (baseURL c ++ "/api/chat") "{}" [])) (ext w)
    = (Demo.reply 404 Demo.error_body, x')
    /\ Chat Demo.env c [] [] w = (Normal (Ok Demo.zero_response), mkWorld x' (log w)).
Proof.
  intros w c. eexists. split; [reflexivity|].
  apply (proj2 (Chat_succeeds_iff Demo.env c [] [] w Demo.zero_response _)).
  do 4 eexists. repeat split; reflexivity.
Defined.

Lemma main_reports_client_failure_witness :
  let w0 := Demo.world ["hi"] [] in
  let err := mkError "dial tcp 127.0.0.1:11434: connect: connection refused" in
  exists st w conversation w1,
    Run Demo.env Demo.agent 0 w0 = Running st w
    /\ readInput Demo.agent st w = (Normal (Some conversation), w1)
    /\ ChatFails Demo.env (client Demo.agent) conversation (ollamaTools Demo.agent)
         (ext w1) err (ext w1)
    /\ main Demo.env Demo.agent (0 + 1) w0
       = Returned (Some err)
           (mkWorld (ext w1)
              (log w1 ++ [EvChat conversation (ollamaTools Demo.agent) (Err err);
                          EvPrint ("Error: " ++ Error err ++ nl)])).
Proof.
  intros w0 err. do 4 eexists.
  split; [vm_compute; reflexivity|].
  split; [vm_compute; reflexivity|].
  split; [eapply transport_fails; reflexivity|].
  eapply (@main_reports_client_failure _ Demo.env Demo.agent 0 w0 _ _ _ _ _ _ 0);
    [vm_compute; reflexivity | vm_compute; reflexivity
    | eapply transport_fails; reflexivity].
Defined.

Lemma ListFiles_returns_the_first_error_witness :
  let x := ext (Demo.world [] []) in
  let err := mkError "open locked/private: permission denied" in
  json_Unmarshal_ListFilesInput Demo.env (Demo.path_args "locked") = Ok "locked"
  /\ first_error (os_tree Demo.env "locked" x) = Some err
  /\ exists result,
       ListFiles Demo.env (Demo.path_args "locked") x
       = (Normal (result, first_error (os_tree Demo.env "locked" x)), x)
       /\ (first_error (os_tree Demo.env "locked" x) <> None -> result = EmptyString).
Proof.
  intros x err. split; [reflexivity|]. split; [reflexivity|].
  exact (ListFiles_returns_the_first_error Demo.env (Demo.path_args "locked")
           (path:="locked") x eq_refl).
Defined.

Lemma ListFiles_on_a_file_is_null_witness :
  let x := Demo.mkExt [] [] [] [("notes.txt", File)] in
  json_Unmarshal_ListFilesInput Demo.env (Demo.path_args "notes.txt") = Ok "notes.txt"
  /\ os_tree Demo.env "notes.txt" x = File
  /\ ListFiles Demo.env (Demo.path_args "notes.txt") x = (Normal ("null", None), x).
Proof.
  intros x. split; [reflexivity|]. split; [reflexivity|].
  exact (ListFiles_on_a_file_is_null Demo.env (Demo.path_args "notes.txt")
           (path:="notes.txt") x eq_refl eq_refl).
Defined.

Lemma iteration_next_state_witness :
  let w := Demo.world ["hi"] [Demo.reply 200 "three"] in
  let calls := [mkToolCall "list_files" (Demo.path_args "./data");
                mkToolCall "write_file" (Demo.path_args "x");
                mkToolCall "read_file" (Demo.path_args "config.yaml")] in
  let response := mkResponse (mkMessage "assistant" EmptyString calls) true in
  exists st1 w1 w0 w2,
    iteration Demo.env Demo.agent Run_start w = (Normal (Continue st1), w1)
    /\ readInput Demo.agent Run_start w = (Normal (Some [mkMessage "user" "hi" []]), w0)
    /\ Chat Demo.env (client Demo.agent) [mkMessage "user" "hi" []]
         (ollamaTools Demo.agent) w0
       = (Normal (Ok response), w2)
    /\ readUserInput st1 = false
    /\ (readUserInput st1 = true <-> ToolCalls (Message response) = []).
Proof.
  intros w calls response. do 4 eexists.
  split; [vm_compute; reflexivity|].
  split; [vm_compute; reflexivity|].
  split; [vm_compute; reflexivity|].
  split; [reflexivity|].
  edestruct (@iteration_next_state _ Demo.env Demo.agent Run_start w)
    as (sent & w0' & response' & w2' & Hin & Hchat & Hiff & _);
    [vm_compute; reflexivity|].
  vm_compute in Hin. injection Hin as <- <-.
  vm_compute in Hchat. injection Hchat as <- <-.
  exact Hiff.
Defined.

Lemma Run_panics_only_in_tools_witness :
  (forall t, In t (tools Demo.careful_agent) ->
             forall input x v, fst (Function t input x) <> Panics v)
  /\ forall v w,
       Run Demo.env Demo.careful_agent 3
         (Demo.world ["hi"] [Demo.reply 200 "bad"; Demo.reply 200 "hello"])
       <> Panicked v w.
Proof.
  assert (H : forall t, In t (tools Demo.careful_agent) ->
                        forall input x v, fst (Function t input x) <> Panics v).
  { intros t [<-|[]] input x v. discriminate. }
  split; [exact H|]. intros v w.
  exact (@Run_panics_only_in_tools _ Demo.env Demo.careful_agent H 3 _ v w).
Defined.


Lemma tool_requests_keep_the_loop_going_witness :
  (forall conversation (w : World Demo.ext),
      exists response x,
        Chat Demo.eager_env (client Demo.careful_agent) conversation
          (ollamaTools Demo.careful_agent) w
          = (Normal (Ok response), mkWorld x (log w))
        /\ ToolCalls (Message response) <> [])
  /\ (forall t, In t (tools Demo.careful_agent) ->
                forall input x v, fst (Function t input x) <> Panics v)
  /\ exists st' w' d,
       iterate Demo.eager_env Demo.careful_agent 25 (mkLoop [user_message "hi"] false)
         (Demo.world [] [])
       = Running st' w'
       /\ readUserInput st' = false
       /\ log w' = (log (Demo.world [] []) ++ d)%list
       /\ inputs d = []
       /\ length (chats d) = 25.
Proof.
  assert (H1 : forall conversation (w : World Demo.ext),
             exists response x,
               Chat Demo.eager_env (client Demo.careful_agent) conversation
                 (ollamaTools Demo.careful_agent) w
                 = (Normal (Ok response), mkWorld x (log w))
               /\ ToolCalls (Message response) <> []).
  { intros conversation w.
    exists (mkResponse (mkMessage "assistant" EmptyString
                          [mkToolCall "write_file" (Demo.path_args "x")]) true),
           (ext w).
    split; [destruct w; vm_compute; reflexivity|discriminate]. }
  assert (H2 : forall t, In t (tools Demo.careful_agent) ->
                         forall input x v, fst (Function t input x) <> Panics v).
  { intros t [<-|[]] input x v. discriminate. }
  split; [exact H1|]. split; [exact H2|].
  exact (@tool_requests_keep_the_loop_going _ Demo.eager_env Demo.careful_agent
           H1 H2 25 (mkLoop [user_message "hi"] false) (Demo.world [] []) eq_refl).
Defined.
